(** * autopilot.transform.timeseries: streaming IIR filter and Kalman filter

    A shallow embedding of [autopilot/transform/timeseries.py].

    Conventions of the embedding:
    - Python [int]s are [Z]; Python/NumPy floating-point numbers are
      idealised as exact reals ([R]), so the theorems speak about the
      recurrences as written, not about rounding.  Where the code raises
      for a number outside a machine range (a float power that overflows,
      an [int] that is no C [ssize_t]) the range is modelled.
    - A NumPy array is a two-dimensional [ndarray]: its shape and its rows.
      All arrays handled by the filters are 2-D (column vectors are [n x 1]).
    - A Python exception is a value of [exn]; a method is a function from the
      object's state to an outcome (a value or an exception) and the state
      the object is left in, since attributes assigned before a [raise] stay
      assigned.
    - What the module gets from SciPy ([signal.iirfilter], [signal.lfilter],
      [signal.sosfilt]) and the matrix inverse [np.linalg.inv] are parameters
      of the classes; the theorems hold for every provider. *)

From Stdlib Require Import String List ZArith Reals Lra Lia Bool Arith.
Import ListNotations.

Set Implicit Arguments.

(** ** Exceptions and the state-and-exception monad *)

Inductive exn : Type :=
| NameError (name : string)
| AttributeError (owner attr : string)
| ValueError (msg : string)
| IndexError (msg : string)
| LinAlgError (msg : string)
| OverflowError (msg : string)
| TypeError (msg : string).

Definition result (A : Type) : Type := (exn + A)%type.

Definition ok {A : Type} (a : A) : result A := inr a.
Definition err {A : Type} (e : exn) : result A := inl e.

Definition rbind {A B : Type} (r : result A) (f : A -> result B) : result B :=
  match r with
  | inl e => inl e
  | inr a => f a
  end.

(** [M S A]: a computation on an object of state [S]. *)
Definition M (S A : Type) : Type := S -> result A * S.

Definition ret {S A : Type} (a : A) : M S A := fun s => (inr a, s).

Definition bind {S A B : Type} (m : M S A) (f : A -> M S B) : M S B :=
  fun s =>
    match m s with
    | (inr a, s') => f a s'
    | (inl e, s') => (inl e, s')
    end.

Definition lift {S A : Type} (r : result A) : M S A := fun s => (r, s).

Definition gets {S A : Type} (f : S -> A) : M S A := fun s => (inr (f s), s).

Definition modify {S : Type} (f : S -> S) : M S unit := fun s => (inr tt, f s).

Declare Scope py_scope.
Delimit Scope py_scope with py.

Notation "x <- c ;; k" := (bind c (fun x => k))
  (at level 100, c at next level, right associativity) : py_scope.
Notation "c ;;; k" := (bind c (fun _ => k))
  (at level 100, right associativity) : py_scope.
Notation "x <-- c ;; k" := (rbind c (fun x => k))
  (at level 100, c at next level, right associativity) : py_scope.

Open Scope py_scope.

(** ** Name resolution

    The module binds exactly these names at top level (its imports and its
    two classes); every other unqualified name is looked up among Python's
    builtins, and a miss is a [NameError]. *)

Definition module_globals : list string :=
  ["deque"; "Transform"; "signal"; "np"; "copy"; "deepcopy";
   "Filter_IIR"; "Kalman"]%string.

(** The builtins the module refers to ([zeros] and [dot] are not names of
    Python builtins). *)
Definition python_builtins : list string :=
  ["super"; "None"; "float"; "int"; "str"; "property"; "ValueError"]%string.

Definition bound (names : list string) (name : string) : bool :=
  existsb (String.eqb name) names.

(** A call through an unqualified name: the name is resolved first; [body]
    is what the call computes once the name is bound. *)
Definition call_global {A : Type} (name : string) (body : result A) : result A :=
  if bound module_globals name || bound python_builtins name
  then body
  else err (NameError name).

(** ** Two-dimensional arrays *)

Record ndarray (A : Type) : Type := mk_ndarray
  { nrows : nat;
    ncols : nat;
    rows : list (list A) }.

Definition build {A : Type} (r c : nat) (f : nat -> nat -> A) : ndarray A :=
  {| nrows := r;
     ncols := c;
     rows := map (fun i => map (f i) (seq 0 c)) (seq 0 r) |}.

Definition item {A : Type} (d : A) (a : ndarray A) (i j : nat) : A :=
  nth j (nth i (rows a) []) d.

(** The rows agree with the recorded shape. *)
Definition wf {A : Type} (a : ndarray A) : Prop :=
  length (rows a) = nrows a /\ Forall (fun r => length r = ncols a) (rows a).

Definition shaped {A : Type} (a : ndarray A) (r c : nat) : Prop :=
  nrows a = r /\ ncols a = c /\ wf a.

Definition matrix : Type := ndarray R.

Open Scope R_scope.

Definition at_ (a : matrix) (i j : nat) : R := item 0 a i j.

Fixpoint rsum (n : nat) (f : nat -> R) : R :=
  match n with
  | O => 0
  | S n' => rsum n' f + f n'
  end.

(** Total matrix operations; the NumPy functions below add the shape checks. *)

Definition mdot (a b : matrix) : matrix :=
  build (nrows a) (ncols b)
        (fun i j => rsum (ncols a) (fun k => at_ a i k * at_ b k j)).

Definition transpose (a : matrix) : matrix :=
  build (ncols a) (nrows a) (fun i j => at_ a j i).

Definition mscale (s : R) (a : matrix) : matrix :=
  build (nrows a) (ncols a) (fun i j => s * at_ a i j).

(** Broadcasting of one axis: equal lengths, or one of them is 1. *)
Definition broadcast_dim (m n : nat) : option nat :=
  if Nat.eqb m n then Some m
  else if Nat.eqb m 1 then Some n
  else if Nat.eqb n 1 then Some m
  else None.

(** Index into an axis that may have been stretched from length 1. *)
Definition bidx (len i : nat) : nat := if Nat.eqb len 1 then O else i.

Definition elementwise (op : R -> R -> R) (r c : nat) (a b : matrix) : matrix :=
  build r c (fun i j =>
               op (at_ a (bidx (nrows a) i) (bidx (ncols a) j))
                  (at_ b (bidx (nrows b) i) (bidx (ncols b) j))).

Definition madd (a b : matrix) : matrix := elementwise Rplus (nrows a) (ncols a) a b.
Definition msub (a b : matrix) : matrix := elementwise Rminus (nrows a) (ncols a) a b.

Definition zero (r c : nat) : matrix := build r c (fun _ _ => 0).

(** A Python value that is either a number or an array. *)
Inductive value : Type :=
| Num (x : R)
| Arr (a : matrix).

(** What a caller may assign to an attribute: a Python [float] (finite,
    idealised as a real), a Python [int], a [str], a [complex], [None] or an
    array. *)
Inductive pyvalue : Type :=
| PyFloat (x : R)
| PyInt (n : Z)
| PyStr (s : string)
| PyComplex (re im : R)
| PyNone
| PyArray (a : matrix).

(** Where the range of a C [double] ends: a result whose exact value is at
    least [2^1024 - 2^970] does not round to a finite float. *)
Definition float_overflow : R := IZR (2 ^ 1024 - 2 ^ 970).

(** [x ** 2] for a float [x]: [OverflowError] when the square leaves the
    range of floats. *)
Definition result_out_of_range : exn :=
  OverflowError "(34, 'Numerical result out of range')".

Definition float_square (x : R) : result R :=
  if Rle_dec float_overflow (x ^ 2) then err result_out_of_range
  else ok (x ^ 2).




(** The bounds of a C [ssize_t], and what CPython raises for an [int]
    outside them. *)
Definition ssize_t_min : Z := - 2 ^ 63.
Definition ssize_t_max : Z := 2 ^ 63 - 1.

Definition not_a_ssize_t : exn :=
  OverflowError "Python int too large to convert to C ssize_t".

(** A number takes part in array arithmetic as a [1 x 1] array that
    broadcasts against any shape. *)
Definition asarray (v : value) : matrix :=
  match v with
  | Num x => build 1 1 (fun _ _ => x)
  | Arr a => a
  end.

(** ** The part of NumPy the module uses *)

Module np.

(** The attributes of the [numpy] namespace the module reaches for that
    NumPy provides. *)
Definition namespace : list string :=
  ["zeros"; "eye"; "array"; "isscalar"; "dot"; "copyto"; "linalg"]%string.

(** A call through [np.<name>]: attribute lookup first. *)
Definition call_attr {A : Type} (name : string) (body : result A) : result A :=
  if bound namespace name then body else err (AttributeError "numpy" name).

Definition negative_dimensions : exn :=
  ValueError "negative dimensions are not allowed".

(** [np.zeros((r, c))] and [np.eye(n)] are modelled for the dimensions whose
    arrays NumPy can allocate: a negative dimension is refused, any other
    request is served.  What NumPy answers to a request it cannot serve
    ([ValueError] for an array beyond the index range, [MemoryError] beyond
    the memory of the machine) is not part of the model; [modest] bounds the
    dimensions a caller chooses so that every array the filter allocates
    from them (a few arrays of at most [dimension_limit] squared floats) is
    served. *)
Definition dimension_limit : Z := 1024.

Definition modest (d : Z) : Prop := (- dimension_limit <= d <= dimension_limit)%Z.

Definition zeros (r c : Z) : result matrix :=
  if ((r <? 0) || (c <? 0))%Z then err negative_dimensions
  else ok (zero (Z.to_nat r) (Z.to_nat c)).

Definition identity (n : nat) : matrix :=
  build n n (fun i j => if Nat.eqb i j then 1 else 0).

Definition eye (n : Z) : result matrix :=
  if (n <? 0)%Z then err negative_dimensions
  else ok (identity (Z.to_nat n)).

Definition isscalar (v : value) : bool :=
  match v with
  | Num _ => true
  | Arr _ => false
  end.

(** [np.isscalar] on the values a caller may assign: numbers and strings
    are scalars, [None] and arrays are not. *)
Definition isscalar_object (v : pyvalue) : bool :=
  match v with
  | PyFloat _ | PyInt _ | PyStr _ | PyComplex _ _ => true
  | PyNone | PyArray _ => false
  end.

Definition dot (a b : matrix) : result matrix :=
  if Nat.eqb (ncols a) (nrows b) then ok (mdot a b)
  else err (ValueError "shapes not aligned").

Definition broadcast (op : R -> R -> R) (a b : matrix) : result matrix :=
  match broadcast_dim (nrows a) (nrows b), broadcast_dim (ncols a) (ncols b) with
  | Some r, Some c => ok (elementwise op r c a b)
  | _, _ => err (ValueError "operands could not be broadcast together")
  end.

Definition add : matrix -> matrix -> result matrix := broadcast Rplus.
Definition subtract : matrix -> matrix -> result matrix := broadcast Rminus.

(** [s * a] for a Python number [s]. *)
Definition scale (s : R) (a : matrix) : matrix := mscale s a.

(** [a * s] for a Python number [s]. *)
Definition scale_r (a : matrix) (s : R) : matrix :=
  build (nrows a) (ncols a) (fun i j => at_ a i j * s).

Definition fits (src dst : nat) : bool := Nat.eqb src dst || Nat.eqb src 1.

(** [np.copyto(dst, src)]: the new contents of [dst]; [src] is broadcast
    to the shape of [dst], which never changes. *)
Definition copyto {A B : Type} (d : A) (conv : A -> B)
           (dst : ndarray B) (src : ndarray A) : result (ndarray B) :=
  if fits (nrows src) (nrows dst) && fits (ncols src) (ncols dst)
  then ok (build (nrows dst) (ncols dst)
                 (fun i j => conv (item d src (bidx (nrows src) i) (bidx (ncols src) j))))
  else err (ValueError "could not broadcast input array").

(** [np.array([[None] * m]).T]: a column of [m] missing entries
    ([[None] * m] is the empty list when [m] is negative). *)
Definition none_column (m : Z) : ndarray (option R) :=
  build (Z.to_nat m) 1 (fun _ _ => None).

End np.

(** ** class Transform *)

Module Transform.

(** Modelled from the spec: the base class [Transform] of
    [autopilot.transform.transforms] is not part of the sources at hand.
    The spec treats it as an abstract stateful transform with a [process]
    entry point and no further lifecycle hooks, so [super().__init__(...)]
    returns normally and touches none of the attributes of the two
    filters. *)
Definition __init__ : result unit := ok tt.

End Transform.

(** ** collections.deque *)

Record deque : Type := mk_deque
  { maxlen : option nat;
    items : list R }.

(** [deque(maxlen=n)]: [None] is unbounded; an [int] is first converted to
    a C [ssize_t], which fails outside its range, and then a negative bound
    is refused. *)
Definition deque_new (n : option Z) : result deque :=
  match n with
  | None => ok (mk_deque None [])
  | Some n =>
      if ((n <? ssize_t_min) || (ssize_t_max <? n))%Z then err not_a_ssize_t
      else if (n <? 0)%Z then err (ValueError "maxlen must be non-negative")
      else ok (mk_deque (Some (Z.to_nat n)) [])
  end.

(** [d.append(x)]: [x] goes to the right end; once the bound is exceeded the
    leftmost item is dropped. *)
Definition deque_append (x : R) (d : deque) : deque :=
  let l := (items d ++ [x])%list in
  match maxlen d with
  | None => mk_deque None l
  | Some n => mk_deque (Some n) (if Nat.ltb n (length l) then tl l else l)
  end.

(** [a[-1]] on a one-dimensional array. *)
Definition last_item (a : list R) : result R :=
  match rev a with
  | [] => err (IndexError "index -1 is out of bounds for axis 0 with size 0")
  | x :: _ => ok x
  end.

(** ** class Filter_IIR *)

Module Filter_IIR.

Section Class.

(** The external signal-processing library: [design] are the keyword
    arguments handed on to [signal.iirfilter] ([N], [Wn], [btype], ...),
    [coefficients] is what it returns and [entry] what indexing a
    coefficient object gives. *)
Variables design coefficients entry : Type.
Variable iirfilter : string -> string -> design -> result coefficients.
Variable getitem : coefficients -> Z -> result entry.
Variable lfilter : entry -> entry -> list R -> Z -> result (list R).
Variable sosfilt : coefficients -> list R -> Z -> result (list R).

Record t : Type := mk
  { ftype : string;
    coef_type : string;
    axis : Z;
    coefs : coefficients;
    buffer : deque }.

Definition set_buffer (v : deque) (self : t) : t :=
  mk (ftype self) (coef_type self) (axis self) (coefs self) v.

(** The filter [self] with the window [w] in a buffer bounded by [n]. *)
Definition holding (n : nat) (w : list R) (self : t) : t :=
  set_buffer (mk_deque (Some n) w) self.

Definition __init__ (ftype : string) (buffer_size : option Z)
           (coef_type : string) (axis : Z) (kwargs : design) : result t :=
  _ <-- Transform.__init__ ;;
  coefs <-- iirfilter ftype coef_type kwargs ;;
  buffer <-- deque_new buffer_size ;;
  ok (mk ftype coef_type axis coefs buffer).

(** The value [process] returns for the buffer as it stands: the body of
    [process] after the [append].  Falling off the end of the [if]/[elif]
    returns [None]. *)
Definition filtered (self : t) : result (option R) :=
  if String.eqb (coef_type self) "ba" then
    b <-- getitem (coefs self) 0%Z ;;
    a <-- getitem (coefs self) 1%Z ;;
    out <-- lfilter b a (items (buffer self)) (axis self) ;;
    v <-- last_item out ;;
    ok (Some v)
  else if String.eqb (coef_type self) "sos" then
    out <-- sosfilt (coefs self) (items (buffer self)) (axis self) ;;
    v <-- last_item out ;;
    ok (Some v)
  else ok None.

Definition process (input : R) : M t (option R) :=
  modify (fun self => set_buffer (deque_append input (buffer self)) self) ;;;
  (fun self => lift (filtered self) self).

(** Feeding samples one call after the other; the outcomes of the calls are
    collected, the object carries on after a call that raised. *)
Fixpoint feed (inputs : list R) (self : t) : list (result (option R)) * t :=
  match inputs with
  | [] => ([], self)
  | x :: rest =>
      let (out, self') := process x self in
      let (outs, self'') := feed rest self' in
      (out :: outs, self'')
  end.

End Class.

End Filter_IIR.

(** The last [n] elements of a list. *)
Definition lastn {A : Type} (n : nat) (l : list A) : list A :=
  skipn (length l - n) l.

(** ** class Kalman *)

Module Kalman.

Record t : Type := mk
  { dim_state : Z;
    dim_measurement : Z;
    dim_control : Z;
    x_state : matrix;
    P_cov : matrix;
    Q_proc_var : matrix;
    B_control : option matrix;
    F_state_trans : matrix;
    H_measure : matrix;
    R_measure_var : matrix;
    _alpha_sq : R;
    M_proc_measure_xcor : matrix;
    z_measure : ndarray (option R);
    K : matrix;
    y : matrix;
    S : matrix;
    SI : matrix;
    _I : matrix;
    x_prior : matrix;
    P_prior : matrix;
    x_post : matrix;
    P_post : matrix;
    _log_likelihood : option R;
    _likelihood : option R;
    _mahalanobis : option R }.

(** Attribute assignment, one function for each attribute the methods assign. *)

Definition set_x_state (v : matrix) (k : t) : t :=
  mk (dim_state k) (dim_measurement k) (dim_control k) v (P_cov k)
    (Q_proc_var k) (B_control k) (F_state_trans k) (H_measure k)
    (R_measure_var k) (_alpha_sq k) (M_proc_measure_xcor k) (z_measure k)
    (K k) (y k) (S k) (SI k) (_I k) (x_prior k) (P_prior k) (x_post k)
    (P_post k) (_log_likelihood k) (_likelihood k) (_mahalanobis k).

Definition set_P_cov (v : matrix) (k : t) : t :=
  mk (dim_state k) (dim_measurement k) (dim_control k) (x_state k) v
    (Q_proc_var k) (B_control k) (F_state_trans k) (H_measure k)
    (R_measure_var k) (_alpha_sq k) (M_proc_measure_xcor k) (z_measure k)
    (K k) (y k) (S k) (SI k) (_I k) (x_prior k) (P_prior k) (x_post k)
    (P_post k) (_log_likelihood k) (_likelihood k) (_mahalanobis k).

Definition set_alpha_sq (v : R) (k : t) : t :=
  mk (dim_state k) (dim_measurement k) (dim_control k) (x_state k) (P_cov k)
    (Q_proc_var k) (B_control k) (F_state_trans k) (H_measure k)
    (R_measure_var k) v (M_proc_measure_xcor k) (z_measure k) (K k) (y k)
    (S k) (SI k) (_I k) (x_prior k) (P_prior k) (x_post k) (P_post k)
    (_log_likelihood k) (_likelihood k) (_mahalanobis k).

Definition set_z_measure (v : ndarray (option R)) (k : t) : t :=
  mk (dim_state k) (dim_measurement k) (dim_control k) (x_state k) (P_cov k)
    (Q_proc_var k) (B_control k) (F_state_trans k) (H_measure k)
    (R_measure_var k) (_alpha_sq k) (M_proc_measure_xcor k) v (K k) (y k)
    (S k) (SI k) (_I k) (x_prior k) (P_prior k) (x_post k) (P_post k)
    (_log_likelihood k) (_likelihood k) (_mahalanobis k).

Definition set_K (v : matrix) (k : t) : t :=
  mk (dim_state k) (dim_measurement k) (dim_control k) (x_state k) (P_cov k)
    (Q_proc_var k) (B_control k) (F_state_trans k) (H_measure k)
    (R_measure_var k) (_alpha_sq k) (M_proc_measure_xcor k) (z_measure k) v
    (y k) (S k) (SI k) (_I k) (x_prior k) (P_prior k) (x_post k) (P_post k)
    (_log_likelihood k) (_likelihood k) (_mahalanobis k).

Definition set_y (v : matrix) (k : t) : t :=
  mk (dim_state k) (dim_measurement k) (dim_control k) (x_state k) (P_cov k)
    (Q_proc_var k) (B_control k) (F_state_trans k) (H_measure k)
    (R_measure_var k) (_alpha_sq k) (M_proc_measure_xcor k) (z_measure k)
    (K k) v (S k) (SI k) (_I k) (x_prior k) (P_prior k) (x_post k)
    (P_post k) (_log_likelihood k) (_likelihood k) (_mahalanobis k).

Definition set_S (v : matrix) (k : t) : t :=
  mk (dim_state k) (dim_measurement k) (dim_control k) (x_state k) (P_cov k)
    (Q_proc_var k) (B_control k) (F_state_trans k) (H_measure k)
    (R_measure_var k) (_alpha_sq k) (M_proc_measure_xcor k) (z_measure k)
    (K k) (y k) v (SI k) (_I k) (x_prior k) (P_prior k) (x_post k)
    (P_post k) (_log_likelihood k) (_likelihood k) (_mahalanobis k).

Definition set_SI (v : matrix) (k : t) : t :=
  mk (dim_state k) (dim_measurement k) (dim_control k) (x_state k) (P_cov k)
    (Q_proc_var k) (B_control k) (F_state_trans k) (H_measure k)
    (R_measure_var k) (_alpha_sq k) (M_proc_measure_xcor k) (z_measure k)
    (K k) (y k) (S k) v (_I k) (x_prior k) (P_prior k) (x_post k) (P_post k)
    (_log_likelihood k) (_likelihood k) (_mahalanobis k).

Definition set_x_prior (v : matrix) (k : t) : t :=
  mk (dim_state k) (dim_measurement k) (dim_control k) (x_state k) (P_cov k)
    (Q_proc_var k) (B_control k) (F_state_trans k) (H_measure k)
    (R_measure_var k) (_alpha_sq k) (M_proc_measure_xcor k) (z_measure k)
    (K k) (y k) (S k) (SI k) (_I k) v (P_prior k) (x_post k) (P_post k)
    (_log_likelihood k) (_likelihood k) (_mahalanobis k).

Definition set_P_prior (v : matrix) (k : t) : t :=
  mk (dim_state k) (dim_measurement k) (dim_control k) (x_state k) (P_cov k)
    (Q_proc_var k) (B_control k) (F_state_trans k) (H_measure k)
    (R_measure_var k) (_alpha_sq k) (M_proc_measure_xcor k) (z_measure k)
    (K k) (y k) (S k) (SI k) (_I k) (x_prior k) v (x_post k) (P_post k)
    (_log_likelihood k) (_likelihood k) (_mahalanobis k).

Definition set_x_post (v : matrix) (k : t) : t :=
  mk (dim_state k) (dim_measurement k) (dim_control k) (x_state k) (P_cov k)
    (Q_proc_var k) (B_control k) (F_state_trans k) (H_measure k)
    (R_measure_var k) (_alpha_sq k) (M_proc_measure_xcor k) (z_measure k)
    (K k) (y k) (S k) (SI k) (_I k) (x_prior k) (P_prior k) v (P_post k)
    (_log_likelihood k) (_likelihood k) (_mahalanobis k).

Definition set_P_post (v : matrix) (k : t) : t :=
  mk (dim_state k) (dim_measurement k) (dim_control k) (x_state k) (P_cov k)
    (Q_proc_var k) (B_control k) (F_state_trans k) (H_measure k)
    (R_measure_var k) (_alpha_sq k) (M_proc_measure_xcor k) (z_measure k)
    (K k) (y k) (S k) (SI k) (_I k) (x_prior k) (P_prior k) (x_post k) v
    (_log_likelihood k) (_likelihood k) (_mahalanobis k).

Definition set_log_likelihood (v : option R) (k : t) : t :=
  mk (dim_state k) (dim_measurement k) (dim_control k) (x_state k) (P_cov k)
    (Q_proc_var k) (B_control k) (F_state_trans k) (H_measure k)
    (R_measure_var k) (_alpha_sq k) (M_proc_measure_xcor k) (z_measure k)
    (K k) (y k) (S k) (SI k) (_I k) (x_prior k) (P_prior k) (x_post k)
    (P_post k) v (_likelihood k) (_mahalanobis k).

Definition set_likelihood (v : option R) (k : t) : t :=
  mk (dim_state k) (dim_measurement k) (dim_control k) (x_state k) (P_cov k)
    (Q_proc_var k) (B_control k) (F_state_trans k) (H_measure k)
    (R_measure_var k) (_alpha_sq k) (M_proc_measure_xcor k) (z_measure k)
    (K k) (y k) (S k) (SI k) (_I k) (x_prior k) (P_prior k) (x_post k)
    (P_post k) (_log_likelihood k) v (_mahalanobis k).

Definition set_mahalanobis (v : option R) (k : t) : t :=
  mk (dim_state k) (dim_measurement k) (dim_control k) (x_state k) (P_cov k)
    (Q_proc_var k) (B_control k) (F_state_trans k) (H_measure k)
    (R_measure_var k) (_alpha_sq k) (M_proc_measure_xcor k) (z_measure k)
    (K k) (y k) (S k) (SI k) (_I k) (x_prior k) (P_prior k) (x_post k)
    (P_post k) (_log_likelihood k) (_likelihood k) v.

(** [_init_arrays]: the attributes are created in source order; the first
    step that raises ends the construction, and no instance exists.  The
    line [self.y = zeros((self.dim_measurement, 1))] goes through the
    unqualified name [zeros]. *)
Definition _init_arrays (dim_state dim_measurement dim_control : Z)
           (state : option matrix) : result t :=
  x_state <-- match state with
              | Some s => ok s
              | None => np.zeros dim_state 1
              end ;;
  P_cov <-- np.eye dim_state ;;
  Q_proc_var <-- np.eye dim_state ;;
  let B_control := @None matrix in
  F_state_trans <-- np.eye dim_state ;;
  H_measure <-- np.zeros dim_measurement dim_state ;;
  R_measure_var <-- np.eye dim_measurement ;;
  let _alpha_sq := 1 in
  M_proc_measure_xcor <-- np.zeros dim_state dim_measurement ;;
  let z_measure := np.none_column dim_measurement in
  K <-- np.zeros dim_state dim_measurement ;;
  y <-- call_global "zeros" (np.zeros dim_measurement 1) ;;
  S <-- np.zeros dim_measurement dim_measurement ;;
  SI <-- np.zeros dim_measurement dim_measurement ;;
  _I <-- np.eye dim_state ;;
  let x_prior := x_state in
  let P_prior := P_cov in
  let x_post := x_state in
  let P_post := P_cov in
  ok (mk dim_state dim_measurement dim_control x_state P_cov Q_proc_var
         B_control F_state_trans H_measure R_measure_var _alpha_sq
         M_proc_measure_xcor z_measure K y S SI _I
         x_prior P_prior x_post P_post None None None).

Definition __init__ (dim_state : Z) (dim_measurement : option Z)
           (dim_control : Z) : result t :=
  let dim_measurement :=
    match dim_measurement with
    | None => dim_state
    | Some m => m
    end in
  _ <-- Transform.__init__ ;;
  _init_arrays dim_state dim_measurement dim_control None.

(** A noise argument ([Q] or [R]) after defaulting: the stored matrix when
    the argument is [None], [np.eye(dim) * q] for a number [q], the argument
    itself when it is an array. *)
Definition resolve_noise (arg : option value) (stored : matrix) (dim : Z)
  : result matrix :=
  match arg with
  | None => ok stored
  | Some (Num q) => e <-- np.eye dim ;; ok (np.scale_r e q)
  | Some (Arr a) => ok a
  end.

(** [predict(u, B, F, Q)]: defaulting of [B], [F], [Q]; then the new
    [x_state], the new [P_cov], and the copies into [x_prior], [P_prior]. *)
Definition predict (u B F : option matrix) (Q : option value) : M t unit :=
  B <- gets (fun self => match B with
                         | None => B_control self
                         | Some b => Some b
                         end) ;;
  F <- gets (fun self => match F with
                         | None => F_state_trans self
                         | Some f => f
                         end) ;;
  Q <- (fun self => lift (resolve_noise Q (Q_proc_var self) (dim_state self)) self) ;;
  x <- gets x_state ;;
  Fx <- lift (np.dot F x) ;;
  match B, u with
  | Some B, Some u =>
      Bu <- lift (np.dot B u) ;;
      x' <- lift (np.add Fx Bu) ;;
      modify (set_x_state x')
  | _, _ => modify (set_x_state Fx)
  end ;;;
  P <- gets P_cov ;;
  alpha_sq <- gets _alpha_sq ;;
  FP <- lift (np.dot F P) ;;
  FPFt <- lift (np.dot FP (transpose F)) ;;
  P' <- lift (np.add (np.scale alpha_sq FPFt) Q) ;;
  modify (set_P_cov P') ;;;
  x_prior' <- (fun self => lift (np.copyto 0 id (x_prior self) (x_state self)) self) ;;
  modify (set_x_prior x_prior') ;;;
  P_prior' <- (fun self => lift (np.copyto 0 id (P_prior self) (P_cov self)) self) ;;
  modify (set_P_prior P_prior').

Section Methods.

(** [np.linalg.inv], the matrix inverse of the external linear-algebra
    provider (it raises [LinAlgError] on a singular argument). *)
Variable linalg_inv : matrix -> result matrix.

(** [update(z, R, H)]: the likelihood caches are dropped first; [z = None]
    is the branch that returns early; with [H = None] the measurement is
    passed through [np.reshape_z] before [H_measure] is taken. *)
Definition update (z : option value) (R : option value) (H : option matrix)
  : M t unit :=
  modify (set_log_likelihood None) ;;;
  modify (set_likelihood None) ;;;
  modify (set_mahalanobis None) ;;;
  match z with
  | None =>
      m <- gets dim_measurement ;;
      modify (set_z_measure (np.none_column m)) ;;;
      x_post' <- (fun self => lift (np.copyto 0 id (x_post self) (x_state self)) self) ;;
      modify (set_x_post x_post') ;;;
      P_post' <- (fun self => lift (np.copyto 0 id (P_post self) (P_cov self)) self) ;;
      modify (set_P_post P_post') ;;;
      y' <- lift (np.zeros m 1) ;;
      modify (set_y y')
  | Some z =>
      R <- (fun self =>
              lift (resolve_noise R (R_measure_var self) (dim_measurement self)) self) ;;
      zH <- match H with
            | None =>
                z' <- lift (np.call_attr "reshape_z" (ok z)) ;;
                H' <- gets H_measure ;;
                ret (z', H')
            | Some H' => ret (z, H')
            end ;;
      let (z, H) := zH in
      x <- gets x_state ;;
      Hx <- lift (np.dot H x) ;;
      y' <- lift (np.subtract (asarray z) Hx) ;;
      modify (set_y y') ;;;
      P <- gets P_cov ;;
      PHT <- lift (np.dot P (transpose H)) ;;
      HPHT <- lift (np.dot H PHT) ;;
      S' <- lift (np.add HPHT R) ;;
      modify (set_S S') ;;;
      SI' <- lift (linalg_inv S') ;;
      modify (set_SI SI') ;;;
      K' <- lift (np.dot PHT SI') ;;
      modify (set_K K') ;;;
      Ky <- lift (np.dot K' y') ;;
      x' <- lift (np.add x Ky) ;;
      modify (set_x_state x') ;;;
      KH <- lift (np.dot K' H) ;;
      I_KH <- (fun self => lift (np.subtract (_I self) KH) self) ;;
      IP <- lift (np.dot I_KH P) ;;
      IPIt <- lift (np.dot IP (transpose I_KH)) ;;
      KR <- lift (np.dot K' R) ;;
      KRKt <- lift (np.dot KR (transpose K')) ;;
      P' <- lift (np.add IPIt KRKt) ;;
      modify (set_P_cov P') ;;;
      z_measure' <- (fun self => lift (np.copyto 0 Some (z_measure self) (asarray z)) self) ;;
      modify (set_z_measure z_measure') ;;;
      x_post' <- (fun self => lift (np.copyto 0 id (x_post self) (x_state self)) self) ;;
      modify (set_x_post x_post') ;;;
      P_post' <- (fun self => lift (np.copyto 0 id (P_post self) (P_cov self)) self) ;;
      modify (set_P_post P_post')
  end.

(** The keyword arguments [process] passes on; an absent key is [None]. *)
Record kwargs : Type := mk_kwargs
  { kw_u : option matrix;
    kw_B : option matrix;
    kw_F : option matrix;
    kw_Q : option value;
    kw_R : option value;
    kw_H : option matrix }.

(** [process(z, **kwargs)]: [predict], then [update], then [x_state]. *)
Definition process (z : option value) (kw : kwargs) : M t matrix :=
  predict (kw_u kw) (kw_B kw) (kw_F kw) (kw_Q kw) ;;;
  update z (kw_R kw) (kw_H kw) ;;;
  gets x_state.

End Methods.

(** [residual_of] and [measurement_of_state] call [dot] through its
    unqualified name. *)
Definition residual_of (z : value) : M t matrix :=
  Hx <- (fun self => lift (call_global "dot" (np.dot (H_measure self) (x_prior self))) self) ;;
  lift (np.subtract (asarray z) Hx).

Definition measurement_of_state (x : matrix) : M t matrix :=
  fun self => lift (call_global "dot" (np.dot (H_measure self) x)) self.


Definition alpha_error : exn := ValueError "alpha must be a float greater than 1".

(** [value < 1]: numbers are compared, a [str] or a [complex] is not
    ordered against an [int]. *)
Definition not_ordered : exn :=
  TypeError "'<' not supported between instances".

Definition less_than_one (v : pyvalue) : result bool :=
  match v with
  | PyFloat x => ok (if Rlt_dec x 1 then true else false)
  | PyInt n => ok (n <? 1)%Z
  | PyStr _ | PyComplex _ _ | PyNone | PyArray _ => err not_ordered
  end.

(** [value ** 2] for a number: exact for an [int], within the range of
    floats or an [OverflowError] for a float. *)
Definition squared (v : pyvalue) : result R :=
  match v with
  | PyFloat x => float_square x
  | PyInt n => ok (IZR (n ^ 2))
  | PyStr _ | PyComplex _ _ | PyNone | PyArray _ =>
      err (TypeError "unsupported operand type(s) for ** or pow()")
  end.

Definition set_alpha (value_ : pyvalue) : M t unit :=
  if negb (np.isscalar_object value_) then lift (err alpha_error)
  else
    below <- lift (less_than_one value_) ;;
    if (below : bool) then lift (err alpha_error)
    else
      sq <- lift (squared value_) ;;
      modify (set_alpha_sq sq).

End Kalman.

(** ** Instances of the external providers

    The classes are parametric in the linear-algebra and signal-processing
    providers.  The instances below are used to run the model on concrete
    inputs. *)

(** Exact matrix inverse by cofactors. *)

Definition skip_index (p i : nat) : nat := if Nat.ltb i p then i else S i.

Definition minor (a : nat -> nat -> R) (p q : nat) : nat -> nat -> R :=
  fun i j => a (skip_index p i) (skip_index q j).

Fixpoint det (n : nat) (a : nat -> nat -> R) : R :=
  match n with
  | O => 1
  | S n' => rsum (S n') (fun j => (-1) ^ j * a O j * det n' (minor a O j))
  end.

Definition cofactor (n : nat) (a : nat -> nat -> R) (i j : nat) : R :=
  (-1) ^ (i + j) * det (n - 1) (minor a i j).

Definition adjugate_inverse (s : matrix) : matrix :=
  build (nrows s) (nrows s)
        (fun i j => cofactor (nrows s) (at_ s) j i / det (nrows s) (at_ s)).

Definition exact_inv (s : matrix) : result matrix :=
  if Nat.eqb (nrows s) (ncols s) then
    if Req_EM_T (det (nrows s) (at_ s)) 0 then err (LinAlgError "Singular matrix")
    else ok (adjugate_inverse s)
  else err (LinAlgError "Last 2 dimensions of the array must be square").

(** The output forms [scipy.signal.iirfilter] accepts for its [output]
    parameter; the parameter is lower-cased before the test. *)
Definition scipy_output_forms : list string := ["ba"; "zpk"; "sos"]%string.

Definition lower_ascii (c : Ascii.ascii) : Ascii.ascii :=
  let n := Ascii.nat_of_ascii c in
  if Nat.leb 65 n && Nat.leb n 90 then Ascii.ascii_of_nat (n + 32) else c.

Fixpoint lower (s : string) : string :=
  match s with
  | EmptyString => EmptyString
  | String c s' => String (lower_ascii c) (lower s')
  end.

Inductive scipy_coefs : Type :=
| BA (b a : list R)
| ZPK (z p : list (R * R)) (k : R)
| SOS (sections : list (list R)).

Inductive scipy_entry : Type :=
| Row (r : list R)
| Roots (r : list (R * R))
| Gain (k : R).

(** The pass-through filter in each output form. *)
Definition pass_through (output : string) : scipy_coefs :=
  if String.eqb output "ba" then BA [1] [1]
  else if String.eqb output "zpk" then ZPK [] [] 1
  else SOS [[1; 0; 0; 1; 0; 0]].

(** A stand-in for [signal.iirfilter]: it validates the output form as
    SciPy does and answers with the pass-through filter in that form. *)
Definition scipy_iirfilter (ftype output : string) (kwargs : unit)
  : result scipy_coefs :=
  if bound scipy_output_forms (lower output) then ok (pass_through (lower output))
  else err (ValueError "not a valid output form").

(** Indexing a coefficient object (only the indices 0 and 1 occur). *)
Definition scipy_getitem (c : scipy_coefs) (i : Z) : result scipy_entry :=
  match c, i with
  | BA b _, 0%Z => ok (Row b)
  | BA _ a, 1%Z => ok (Row a)
  | ZPK z _ _, 0%Z => ok (Roots z)
  | ZPK _ p _, 1%Z => ok (Roots p)
  | SOS s, 0%Z => match s with r :: _ => ok (Row r) | _ => err (IndexError "index 0") end
  | SOS s, 1%Z => match s with _ :: r :: _ => ok (Row r) | _ => err (IndexError "index 1") end
  | _, _ => err (IndexError "index out of range")
  end.

Fixpoint dotp (c h : list R) : R :=
  match c, h with
  | c0 :: c', h0 :: h' => c0 * h0 + dotp c' h'
  | _, _ => 0
  end.

(** The direct-form recurrence
    [a0 y[n] = b0 x[n] + b1 x[n-1] + ... - a1 y[n-1] - ...];
    [xh] and [yh] hold the past inputs and outputs, latest first. *)
Fixpoint direct_form (b a_tail : list R) (a0 : R) (xh yh xs : list R) : list R :=
  match xs with
  | [] => []
  | x :: xs' =>
      let y := (dotp b (x :: xh) - dotp a_tail yh) / a0 in
      y :: direct_form b a_tail a0 (x :: xh) (y :: yh) xs'
  end.

Definition valid_axis (axis : Z) : bool := (axis =? 0)%Z || (axis =? -1)%Z.

Definition scipy_lfilter (b a : scipy_entry) (x : list R) (axis : Z)
  : result (list R) :=
  match b, a with
  | Row b, Row (a0 :: a_tail) =>
      if valid_axis axis then
        if Req_EM_T a0 0 then err (ValueError "a[0] must be nonzero")
        else ok (direct_form b a_tail a0 [] [] x)
      else err (ValueError "axis out of bounds")
  | _, _ => err (ValueError "filter coefficients must be real sequences")
  end.

Fixpoint cascade (sections : list (list R)) (x : list R) : result (list R) :=
  match sections with
  | [] => ok x
  | [b0; b1; b2; a0; a1; a2] :: rest =>
      if Req_EM_T a0 0 then err (ValueError "a[0] must be nonzero")
      else cascade rest (direct_form [b0; b1; b2] [a1; a2] a0 [] [] x)
  | _ :: _ => err (ValueError "sos array must be shape (n_sections, 6)")
  end.

Definition scipy_sosfilt (c : scipy_coefs) (x : list R) (axis : Z)
  : result (list R) :=
  match c with
  | SOS sections =>
      if valid_axis axis then cascade sections x
      else err (ValueError "axis out of bounds")
  | _ => err (ValueError "sos array must be shape (n_sections, 6)")
  end.

(** A one-dimensional Kalman filter with the attributes [_init_arrays]
    assigns ([x_state = 0], [P_cov = F = I], [alpha_sq = 1], the caches
    zero), the measurement matrix set to the identity and both noise
    covariances set to zero. *)
Definition one : matrix := np.identity 1.
Definition nil1 : matrix := zero 1 1.

Definition noiseless : Kalman.t :=
  Kalman.mk 1 1 0 nil1 one nil1 None one one nil1 1 nil1
            (np.none_column 1) nil1 nil1 nil1 nil1 one
            nil1 one nil1 one None None None.

(** One cycle on it: [predict()], then [update(z, H=H_measure)] with the
    state prior as the measurement [z]. *)
Definition noiseless_predicted : Kalman.t :=
  snd (Kalman.predict None None None None noiseless).

Definition noiseless_updated : Kalman.t :=
  snd (Kalman.update exact_inv
                     (Some (Arr (Kalman.x_prior noiseless_predicted))) None
                     (Some (Kalman.H_measure noiseless)) noiseless_predicted).

Definition no_kwargs : Kalman.kwargs :=
  Kalman.mk_kwargs None None None None None None.

(** Two filters as [Filter_IIR(...)] builds them on the stand-in provider:
    a ['ba'] filter with a two-sample buffer and a ['zpk'] filter with the
    default buffer size. *)
Definition ba_filter : Filter_IIR.t scipy_coefs :=
  Filter_IIR.mk "butter" "ba" 0 (BA [1] [1]) (mk_deque (Some 2%nat) []).

Definition zpk_filter : Filter_IIR.t scipy_coefs :=
  Filter_IIR.mk "butter" "zpk" 0 (ZPK [] [] 1) (mk_deque (Some 256%nat) []).

(** ** Shape conditions

    [conforms k n m]: the arrays of the filter [k] have the shapes
    [_init_arrays] gives them for [dim_state = n] and
    [dim_measurement = m]. *)
Definition conforms (k : Kalman.t) (n m : nat) : Prop :=
  Kalman.dim_state k = Z.of_nat n
  /\ Kalman.dim_measurement k = Z.of_nat m
  /\ shaped (Kalman.x_state k) n 1
  /\ shaped (Kalman.P_cov k) n n
  /\ shaped (Kalman.Q_proc_var k) n n
  /\ shaped (Kalman.F_state_trans k) n n
  /\ shaped (Kalman.H_measure k) m n
  /\ shaped (Kalman.R_measure_var k) m m
  /\ Kalman._I k = np.identity n
  /\ shaped (Kalman.z_measure k) m 1
  /\ shaped (Kalman.x_prior k) n 1
  /\ shaped (Kalman.P_prior k) n n
  /\ shaped (Kalman.x_post k) n 1
  /\ shaped (Kalman.P_post k) n n.

(** An optional array argument, when given, has the shape [r x c]. *)
Definition given_shaped (a : option matrix) (r c : nat) : Prop :=
  match a with
  | None => True
  | Some a => shaped a r c
  end.

(** A noise argument, when given as an array, has the shape [n x n]. *)
Definition noise_shaped (a : option value) (n : nat) : Prop :=
  match a with
  | Some (Arr a) => shaped a n n
  | _ => True
  end.

(** The control matrix and the control vector, when both are there, fit:
    [B] is [n x c] and [u] is [c x 1]. *)
Definition control_fits (B u : option matrix) (n : nat) : Prop :=
  match B, u with
  | Some B, Some u => nrows B = n /\ ncols B = nrows u /\ ncols u = 1%nat
  | _, _ => True
  end.

(** Defaulting of optional arguments. *)
Definition default {A : Type} (arg : option A) (stored : A) : A :=
  match arg with
  | None => stored
  | Some a => a
  end.

Definition default_noise (arg : option value) (stored : matrix) (n : nat) : matrix :=
  match arg with
  | None => stored
  | Some (Num q) => np.scale_r (np.identity n) q
  | Some (Arr a) => a
  end.

Definition or_stored {A : Type} (arg stored : option A) : option A :=
  match arg with
  | None => stored
  | Some a => Some a
  end.

(** The state and the covariance [predict] computes, as total matrix
    expressions: [F x + B u] (or [F x]) and [alpha_sq (F P F^T) + Q]. *)
Definition predicted_state (F : matrix) (B u : option matrix) (x : matrix) : matrix :=
  match B, u with
  | Some B, Some u => madd (mdot F x) (mdot B u)
  | _, _ => mdot F x
  end.

Definition predicted_cov (alpha_sq : R) (F P Q : matrix) : matrix :=
  madd (mscale alpha_sq (mdot (mdot F P) (transpose F))) Q.

(** The values [update] computes, as total matrix expressions. *)

(** [z - H x]; a number [z] is broadcast over the column. *)
Definition residual (z : value) (Hx : matrix) : matrix :=
  elementwise Rminus (nrows Hx) (ncols Hx) (asarray z) Hx.

(** [H P H^T + R]. *)
Definition innovation_cov (H P R : matrix) : matrix :=
  madd (mdot H (mdot P (transpose H))) R.

(** [P H^T SI]. *)
Definition gain (H P SI : matrix) : matrix :=
  mdot (mdot P (transpose H)) SI.

(** [(I - K H) P (I - K H)^T + K R K^T], the Joseph form. *)
Definition joseph (I_ K H P R : matrix) : matrix :=
  madd (mdot (mdot (msub I_ (mdot K H)) P) (transpose (msub I_ (mdot K H))))
       (mdot (mdot K R) (transpose K)).

(** The measurement as [np.copyto] stores it in the [m x 1] array
    [z_measure]. *)
Definition recorded (z : value) (m : nat) : ndarray (option R) :=
  build m 1 (fun i j => Some (at_ (asarray z)
                                  (bidx (nrows (asarray z)) i)
                                  (bidx (ncols (asarray z)) j))).

(** [update] starts by dropping the cached likelihoods. *)
Definition invalidated (k : Kalman.t) : Kalman.t :=
  Kalman.set_mahalanobis None
    (Kalman.set_likelihood None (Kalman.set_log_likelihood None k)).

(** A measurement that fits dimension [m]: a number, or a column of
    height [m]. *)
Definition measurement_shaped (z : value) (m : nat) : Prop :=
  match z with
  | Num _ => True
  | Arr a => shaped a m 1
  end.

(** ** Further notions used below *)

(** A square array equal to its transpose. *)
Definition symmetric (a : matrix) : Prop := transpose a = a.

(** The filter [k] as a successful [predict(u, B, F, Q)] leaves it, for
    state dimension [n]. *)
Definition predicted (k : Kalman.t) (u B F : option matrix) (Q : option value)
           (n : nat) : Kalman.t :=
  let F' := default F (Kalman.F_state_trans k) in
  let x' := predicted_state F' (or_stored B (Kalman.B_control k)) u
                            (Kalman.x_state k) in
  let P' := predicted_cov (Kalman._alpha_sq k) F' (Kalman.P_cov k)
                          (default_noise Q (Kalman.Q_proc_var k) n) in
  Kalman.set_P_prior P'
    (Kalman.set_x_prior x' (Kalman.set_P_cov P' (Kalman.set_x_state x' k))).

(** The filter [k] as [update(None)] leaves it, for measurement dimension
    [m]. *)
Definition skipped (k : Kalman.t) (m : nat) : Kalman.t :=
  Kalman.set_y (zero m 1)
    (Kalman.set_P_post (Kalman.P_cov k)
       (Kalman.set_x_post (Kalman.x_state k)
          (Kalman.set_z_measure (np.none_column (Z.of_nat m))
             (invalidated k)))).

(** The filter [k] as a successful [update(z, R, H)] leaves it, [SI] being
    the inverse delivered for the innovation covariance. *)
Definition measured (k : Kalman.t) (z : value) (R : option value)
           (H SI : matrix) (n m : nat) : Kalman.t :=
  let R' := default_noise R (Kalman.R_measure_var k) m in
  let x := Kalman.x_state k in
  let P := Kalman.P_cov k in
  let y' := residual z (mdot H x) in
  let S' := innovation_cov H P R' in
  let K' := gain H P SI in
  let x' := madd x (mdot K' y') in
  let P' := joseph (np.identity n) K' H P R' in
  Kalman.set_P_post P'
    (Kalman.set_x_post x'
       (Kalman.set_z_measure (recorded z m)
          (Kalman.set_P_cov P'
             (Kalman.set_x_state x'
                (Kalman.set_K K'
                   (Kalman.set_SI SI
                      (Kalman.set_S S'
                         (Kalman.set_y y' (invalidated k))))))))).

(** A two-dimensional constant-velocity filter ([F = [[1, 1], [0, 1]]],
    [H = [[1, 0]]]), otherwise with the attributes [_init_arrays] assigns. *)
Definition tracker : Kalman.t :=
  Kalman.mk 2 1 0 (zero 2 1) (np.identity 2) (np.identity 2) None
            (build 2 2 (fun i j => if Nat.eqb i 1 && Nat.eqb j 0 then 0 else 1))
            (build 1 2 (fun _ j => if Nat.eqb j 0 then 1 else 0))
            (np.identity 1) 1 (zero 2 1) (np.none_column 1)
            (zero 2 1) (zero 1 1) (zero 1 1) (zero 1 1) (np.identity 2)
            (zero 2 1) (np.identity 2) (zero 2 1) (np.identity 2)
            None None None.

(** Keyword arguments that only hand over [H]. *)
Definition H_only : Kalman.kwargs :=
  Kalman.mk_kwargs None None None None None (Some (np.identity 1)).

(** Two more filters on the stand-in provider: one with an unbounded
    buffer, one with [buffer_size = 0]. *)
Definition unbounded_filter : Filter_IIR.t scipy_coefs :=
  Filter_IIR.mk "butter" "sos" 0 (SOS [[1; 0; 0; 1; 0; 0]]) (mk_deque None []).

Definition blocked_filter : Filter_IIR.t scipy_coefs :=
  Filter_IIR.mk "butter" "ba" 0 (BA [1] [1]) (mk_deque (Some 0%nat) []).

(** * Properties *)

(** ** Name resolution *)

Lemma zeros_unbound (A : Type) (body : result A) :
  call_global "zeros" body = err (NameError "zeros").
Proof. reflexivity. Qed.

Lemma dot_unbound (A : Type) (body : result A) :
  call_global "dot" body = err (NameError "dot").
Proof. reflexivity. Qed.

Lemma reshape_z_missing (A : Type) (body : result A) :
  np.call_attr "reshape_z" body = err (AttributeError "numpy" "reshape_z").
Proof. reflexivity. Qed.

Lemma zeros_nonneg (r c : Z) :
  (0 <= r)%Z -> (0 <= c)%Z ->
  np.zeros r c = ok (zero (Z.to_nat r) (Z.to_nat c)).
Proof.
  intros Hr Hc. unfold np.zeros.
  destruct (Z.ltb_spec r 0); [lia|].
  destruct (Z.ltb_spec c 0); [lia|]. reflexivity.
Qed.

Lemma zeros_negative (r c : Z) :
  (r < 0)%Z \/ (c < 0)%Z -> np.zeros r c = err np.negative_dimensions.
Proof.
  intros H. unfold np.zeros.
  destruct (Z.ltb_spec r 0); [reflexivity|].
  destruct (Z.ltb_spec c 0); [reflexivity|]. lia.
Qed.

Lemma eye_nonneg (n : Z) :
  (0 <= n)%Z -> np.eye n = ok (np.identity (Z.to_nat n)).
Proof.
  intros Hn. unfold np.eye. destruct (Z.ltb_spec n 0); [lia|]. reflexivity.
Qed.

Lemma eye_negative (n : Z) :
  (n < 0)%Z -> np.eye n = err np.negative_dimensions.
Proof.
  intros Hn. unfold np.eye. destruct (Z.ltb_spec n 0); [reflexivity|lia].
Qed.

(** ** Construction of a Kalman filter *)

Lemma init_arrays_NameError (ds dm dc : Z) (state : option matrix) :
  (0 <= ds)%Z -> (0 <= dm)%Z ->
  Kalman._init_arrays ds dm dc state = err (NameError "zeros").
Proof.
  intros Hs Hm. unfold Kalman._init_arrays.
  rewrite !eye_nonneg by assumption.
  rewrite !zeros_nonneg by lia.
  destruct state; reflexivity.
Qed.

Lemma init_arrays_fails (ds dm dc : Z) (state : option matrix) :
  exists e, Kalman._init_arrays ds dm dc state = err e.
Proof.
  destruct (Z.lt_ge_cases ds 0) as [Hs|Hs].
  - exists np.negative_dimensions. unfold Kalman._init_arrays.
    rewrite (eye_negative Hs).
    destruct state; [reflexivity|].
    rewrite zeros_negative by lia. reflexivity.
  - destruct (Z.lt_ge_cases dm 0) as [Hm|Hm].
    + exists np.negative_dimensions. unfold Kalman._init_arrays.
      rewrite !eye_nonneg by assumption.
      rewrite (zeros_negative (r := dm) (c := ds)) by lia.
      destruct state; [reflexivity|].
      rewrite zeros_nonneg by lia. reflexivity.
    + exists (NameError "zeros"). now apply init_arrays_NameError.
Qed.

Lemma init_arrays_outcome (ds dm dc : Z) :
  Kalman._init_arrays ds dm dc None =
  err (if ((ds <? 0) || (dm <? 0))%Z then np.negative_dimensions
       else NameError "zeros").
Proof.
  destruct (Z.ltb_spec ds 0) as [Hs|Hs]; cbn [orb].
  - unfold Kalman._init_arrays. rewrite zeros_negative by lia. reflexivity.
  - destruct (Z.ltb_spec dm 0) as [Hm|Hm].
    + unfold Kalman._init_arrays.
      rewrite !eye_nonneg by assumption.
      rewrite (zeros_negative (r := dm) (c := ds)) by lia.
      rewrite zeros_nonneg by lia. reflexivity.
    + now apply init_arrays_NameError.
Qed.

(** C1 (as amended).  For dimensions of modest size (at most
    [np.dimension_limit] in absolute value, so that NumPy can allocate every
    array asked of it), [Kalman(dim_state, dim_measurement, dim_control)]
    raises and no instance comes into being: the exception is the
    [NameError] for the unbound name [zeros] whenever [dim_state] and the
    measurement dimension ([dim_state] again when [dim_measurement] is
    [None]) are non-negative, and NumPy's complaint about negative
    dimensions, raised by an earlier line, otherwise. *)
Theorem Kalman_construction_raises (dim_state : Z) (dim_measurement : option Z)
        (dim_control : Z) :
  np.modest dim_state ->
  np.modest (match dim_measurement with
             | None => dim_state
             | Some m => m
             end) ->
  Kalman.__init__ dim_state dim_measurement dim_control =
  err (if ((dim_state <? 0)
           || (match dim_measurement with
               | None => dim_state
               | Some m => m
               end <? 0))%Z
       then np.negative_dimensions
       else NameError "zeros").
Proof.
  intros _ _. unfold Kalman.__init__. apply init_arrays_outcome.
Qed.

(** C1 as stated fails for a negative [dim_measurement]: line 110,
    [np.zeros((self.dim_measurement, self.dim_state))], raises a
    [ValueError] ten lines before [zeros] is looked up. *)
Lemma Kalman_negative_measurement_dimension :
  Kalman.__init__ 1 (Some (-1)%Z) 0 = err np.negative_dimensions
  /\ Kalman.__init__ 1 (Some (-1)%Z) 0 <> err (NameError "zeros").
Proof.
  assert (H : Kalman.__init__ 1 (Some (-1)%Z) 0 = err np.negative_dimensions).
  { unfold Kalman.__init__. rewrite init_arrays_outcome. reflexivity. }
  split; [exact H|]. rewrite H. unfold err, np.negative_dimensions. discriminate.
Qed.

(** ** Arrays *)

Lemma nth_map_seq (A : Type) (f : nat -> A) (d : A) (n i : nat) :
  (i < n)%nat -> nth i (map f (seq 0 n)) d = f i.
Proof.
  intros Hi. rewrite (nth_indep _ d (f 0%nat)) by now rewrite length_map, length_seq.
  rewrite (map_nth f (seq 0 n) 0%nat i), seq_nth by assumption. reflexivity.
Qed.

Lemma map_nth_seq (A : Type) (l : list A) (d : A) :
  map (fun i => nth i l d) (seq 0 (length l)) = l.
Proof.
  apply nth_ext with (d := d) (d' := d).
  - now rewrite length_map, length_seq.
  - intros i Hi. rewrite length_map, length_seq in Hi. now apply nth_map_seq.
Qed.

Lemma item_build (A : Type) (d : A) (r c : nat) (f : nat -> nat -> A) (i j : nat) :
  (i < r)%nat -> (j < c)%nat -> item d (build r c f) i j = f i j.
Proof.
  intros Hi Hj. unfold item, build; cbn [rows].
  rewrite (nth_map_seq (fun i => map (f i) (seq 0 c)) [] Hi).
  now apply nth_map_seq.
Qed.

Lemma build_ext (A : Type) (r c : nat) (f g : nat -> nat -> A) :
  (forall i j, (i < r)%nat -> (j < c)%nat -> f i j = g i j) ->
  build r c f = build r c g.
Proof.
  intros H. unfold build. f_equal.
  apply map_ext_in. intros i Hi. apply in_seq in Hi.
  apply map_ext_in. intros j Hj. apply in_seq in Hj.
  apply H; lia.
Qed.

Lemma wf_build (A : Type) (r c : nat) (f : nat -> nat -> A) : wf (build r c f).
Proof.
  split; cbn.
  - now rewrite length_map, length_seq.
  - apply Forall_forall. intros row Hrow. apply in_map_iff in Hrow.
    destruct Hrow as [i [<- _]]. now rewrite length_map, length_seq.
Qed.

Lemma shaped_build (A : Type) (r c : nat) (f : nat -> nat -> A) :
  shaped (build r c f) r c.
Proof. repeat split; try reflexivity; apply wf_build. Qed.

Lemma build_item (A : Type) (d : A) (a : ndarray A) :
  wf a -> build (nrows a) (ncols a) (item d a) = a.
Proof.
  destruct a as [r c l]. unfold wf, build, item; cbn.
  intros [Hlen Hrows]. f_equal. subst r.
  rewrite <- (map_nth_seq l []) at 2.
  apply map_ext_in. intros i Hi. apply in_seq in Hi.
  assert (Hc : length (nth i l []) = c).
  { rewrite Forall_forall in Hrows. apply Hrows. apply nth_In. lia. }
  rewrite <- Hc. apply map_nth_seq.
Qed.

Lemma bidx_lt (len i : nat) : (i < len)%nat -> bidx len i = i.
Proof.
  intros Hi. unfold bidx. destruct (Nat.eqb_spec len 1); [lia|reflexivity].
Qed.

Lemma broadcast_dim_same (n : nat) : broadcast_dim n n = Some n.
Proof. unfold broadcast_dim. now rewrite Nat.eqb_refl. Qed.

Lemma dot_aligned (a b : matrix) :
  ncols a = nrows b -> np.dot a b = ok (mdot a b).
Proof. intros H. unfold np.dot. now rewrite H, Nat.eqb_refl. Qed.

Lemma add_same_shape (a b : matrix) :
  nrows a = nrows b -> ncols a = ncols b -> np.add a b = ok (madd a b).
Proof.
  intros Hr Hc. unfold np.add, np.broadcast, madd.
  now rewrite <- Hr, <- Hc, !broadcast_dim_same.
Qed.

Lemma subtract_same_shape (a b : matrix) :
  nrows a = nrows b -> ncols a = ncols b -> np.subtract a b = ok (msub a b).
Proof.
  intros Hr Hc. unfold np.subtract, np.broadcast, msub.
  now rewrite <- Hr, <- Hc, !broadcast_dim_same.
Qed.

Lemma copyto_same_shape (dst src : matrix) :
  wf src -> nrows dst = nrows src -> ncols dst = ncols src ->
  np.copyto 0 id dst src = ok src.
Proof.
  intros Hwf Hr Hc. unfold np.copyto, np.fits.
  rewrite Hr, Hc, !Nat.eqb_refl. cbn [orb andb]. unfold ok. apply f_equal.
  rewrite <- (build_item 0 Hwf) at 3.
  apply build_ext. intros i j Hi Hj. unfold id.
  now rewrite !bidx_lt.
Qed.

(** ** [Kalman.predict] *)

Arguments np.dot : simpl never.
Arguments np.add : simpl never.
Arguments np.subtract : simpl never.
Arguments np.copyto : simpl never.
Arguments np.scale : simpl never.
Arguments np.scale_r : simpl never.
Arguments np.zeros : simpl never.
Arguments np.eye : simpl never.
Arguments np.identity : simpl never.
Arguments np.none_column : simpl never.
Arguments mdot : simpl never.
Arguments madd : simpl never.
Arguments msub : simpl never.
Arguments mscale : simpl never.
Arguments transpose : simpl never.
Arguments build : simpl never.
Arguments asarray : simpl never.
Arguments default : simpl never.
Arguments default_noise : simpl never.
Arguments zero : simpl never.
Arguments predicted_cov : simpl never.
Arguments predicted_state : simpl never.
Arguments recorded : simpl never.
Arguments residual : simpl never.

(** Shape side conditions: the shape of a built array is read off. *)
Ltac shapes :=
  try apply wf_build;
  unfold np.scale, np.scale_r, np.identity, np.none_column, recorded,
    residual, asarray, zero, mscale, madd, msub, mdot, transpose, elementwise,
    build;
  cbn [nrows ncols]; congruence.

Lemma resolve_noise_conforming (arg : option value) (stored : matrix)
      (dim : Z) (n : nat) :
  dim = Z.of_nat n ->
  Kalman.resolve_noise arg stored dim = ok (default_noise arg stored n).
Proof.
  intros ->. unfold Kalman.resolve_noise, default_noise.
  destruct arg as [[q|a]|]; try reflexivity.
  rewrite eye_nonneg by lia. now rewrite Nat2Z.id.
Qed.

Lemma default_noise_shape (arg : option value) (stored : matrix) (n : nat) :
  noise_shaped arg n -> shaped stored n n ->
  nrows (default_noise arg stored n) = n
  /\ ncols (default_noise arg stored n) = n.
Proof.
  intros Ha Hs. destruct arg as [[q|a]|]; cbn in *.
  - now split.
  - destruct Ha as (? & ? & _). now split.
  - destruct Hs as (? & ? & _). now split.
Qed.

Lemma default_shape (arg : option matrix) (stored : matrix) (r c : nat) :
  given_shaped arg r c -> shaped stored r c ->
  nrows (default arg stored) = r /\ ncols (default arg stored) = c.
Proof.
  intros Ha Hs. destruct arg as [a|]; cbn in *.
  - destruct Ha as (? & ? & _). now split.
  - destruct Hs as (? & ? & _). now split.
Qed.

(** The tail of [predict] once the new state is in place. *)
Ltac predict_tail :=
  rewrite dot_aligned by shapes; cbn;
  rewrite dot_aligned by shapes; cbn;
  rewrite add_same_shape by shapes; cbn;
  rewrite copyto_same_shape by shapes; cbn;
  rewrite copyto_same_shape by shapes;
  reflexivity.

Lemma predict_run (k : Kalman.t) (n m : nat) (u B F : option matrix)
      (Q : option value) :
  conforms k n m ->
  given_shaped F n n ->
  noise_shaped Q n ->
  control_fits (or_stored B (Kalman.B_control k)) u n ->
  let F' := default F (Kalman.F_state_trans k) in
  let x' := predicted_state F' (or_stored B (Kalman.B_control k)) u
                            (Kalman.x_state k) in
  let P' := predicted_cov (Kalman._alpha_sq k) F' (Kalman.P_cov k)
                          (default_noise Q (Kalman.Q_proc_var k) n) in
  Kalman.predict u B F Q k =
  (ok tt,
   Kalman.set_P_prior P'
     (Kalman.set_x_prior x' (Kalman.set_P_cov P' (Kalman.set_x_state x' k)))).
Proof.
  intros Hk HF HQ HB F'.
  destruct Hk as (Hds & Hdm & Hx & HP & HQs & HFs & HH & HR & HI & Hz
                  & Hxp & HPp & Hxo & HPo).
  destruct (default_shape F HF HFs) as [HFr HFc]. fold F' in HFr, HFc.
  destruct (default_noise_shape Q HQ HQs) as [HQr HQc].
  destruct Hx as (Hxr & Hxc & Hxw), HP as (HPr & HPc & HPw).
  destruct Hxp as (Hxpr & Hxpc & _), HPp as (HPpr & HPpc & _).
  cbv zeta.
  unfold Kalman.predict, bind, gets, lift, modify.
  rewrite resolve_noise_conforming with (n := n) by exact Hds.
  change (match F with Some f => f | None => Kalman.F_state_trans k end) with F'.
  change (match B with Some b => Some b | None => Kalman.B_control k end)
    with (or_stored B (Kalman.B_control k)).
  rewrite (dot_aligned F' (Kalman.x_state k)) by congruence.
  unfold predicted_state, predicted_cov.
  destruct (or_stored B (Kalman.B_control k)) as [b|], u as [u0|];
    cbn in HB; cbn.
  - destruct HB as (Hbr & Hbc & Huc).
    rewrite (dot_aligned b u0) by assumption. cbn.
    rewrite add_same_shape by shapes. cbn.
    predict_tail.
  - predict_tail.
  - predict_tail.
  - predict_tail.
Qed.

(** C2.  On a filter whose arrays have the shapes of its dimensions, and
    with overriding arguments of those shapes, [predict(u, B, F, Q)]
    returns normally; with [B], [F], [Q] defaulting to the stored
    [B_control], [F_state_trans], [Q_proc_var] and a number [Q] expanded to
    [eye(n) * Q], it leaves [x_state = F x + B u] when a control matrix and
    a control vector are both there and [x_state = F x] otherwise,
    [P_cov = alpha_sq * (F P F^T) + Q], and [x_prior], [P_prior] equal to
    these new values; no other attribute changes. *)
Theorem Kalman_predict_correct (k : Kalman.t) (n m : nat)
        (u B F : option matrix) (Q : option value) :
  conforms k n m ->
  given_shaped F n n ->
  noise_shaped Q n ->
  control_fits (or_stored B (Kalman.B_control k)) u n ->
  let B' := or_stored B (Kalman.B_control k) in
  let F' := default F (Kalman.F_state_trans k) in
  let Q' := default_noise Q (Kalman.Q_proc_var k) n in
  let x' := match B', u with
            | Some B', Some u => madd (mdot F' (Kalman.x_state k)) (mdot B' u)
            | _, _ => mdot F' (Kalman.x_state k)
            end in
  let P' := madd (mscale (Kalman._alpha_sq k)
                         (mdot (mdot F' (Kalman.P_cov k)) (transpose F'))) Q' in
  Kalman.predict u B F Q k =
  (ok tt,
   Kalman.set_P_prior P'
     (Kalman.set_x_prior x' (Kalman.set_P_cov P' (Kalman.set_x_state x' k)))).
Proof.
  intros Hk HF HQ HB. now apply predict_run with (m := m).
Qed.

(** ** [Kalman.update] *)

Lemma broadcast_onto (op : R -> R -> R) (a b : matrix) :
  (nrows a = nrows b \/ nrows a = 1%nat) ->
  (ncols a = ncols b \/ ncols a = 1%nat) ->
  np.broadcast op a b = ok (elementwise op (nrows b) (ncols b) a b).
Proof.
  intros Hr Hc. unfold np.broadcast, broadcast_dim.
  destruct (Nat.eqb_spec (nrows a) (nrows b)) as [Er|Er];
    destruct (Nat.eqb_spec (ncols a) (ncols b)) as [Ec|Ec].
  - now rewrite Er, Ec.
  - destruct Hc as [Hc|Hc]; [contradiction|]. rewrite Hc, Er. reflexivity.
  - destruct Hr as [Hr|Hr]; [contradiction|]. rewrite Hr, Ec. reflexivity.
  - destruct Hr as [Hr|Hr]; [contradiction|].
    destruct Hc as [Hc|Hc]; [contradiction|]. rewrite Hr, Hc. reflexivity.
Qed.

Lemma subtract_measurement (z : value) (Hx : matrix) (m : nat) :
  measurement_shaped z m -> nrows Hx = m -> ncols Hx = 1%nat ->
  np.subtract (asarray z) Hx = ok (residual z Hx).
Proof.
  intros Hz Hr Hc. unfold np.subtract, residual. apply broadcast_onto.
  - destruct z as [x|a]; [right; reflexivity|left].
    destruct Hz as (? & ? & _). unfold asarray. congruence.
  - destruct z as [x|a]; [right; reflexivity|left].
    destruct Hz as (? & ? & _). unfold asarray. congruence.
Qed.

Lemma copyto_measurement (dst : ndarray (option R)) (z : value) (m : nat) :
  measurement_shaped z m -> nrows dst = m -> ncols dst = 1%nat ->
  np.copyto 0 Some dst (asarray z) = ok (recorded z m).
Proof.
  intros Hz Hr Hc. unfold np.copyto, np.fits, recorded.
  rewrite Hr, Hc.
  destruct z as [x|a].
  - change (nrows (asarray (Num x))) with 1%nat.
    change (ncols (asarray (Num x))) with 1%nat.
    now rewrite Nat.eqb_refl, orb_true_r.
  - destruct Hz as (Hzr & Hzc & _). unfold asarray.
    rewrite Hzr, Hzc, !Nat.eqb_refl. reflexivity.
Qed.

Lemma update_run (linalg_inv : matrix -> result matrix)
      (k : Kalman.t) (n m : nat) (z : value) (R : option value)
      (H SI : matrix) :
  conforms k n m ->
  measurement_shaped z m ->
  noise_shaped R m ->
  shaped H m n ->
  let R' := default_noise R (Kalman.R_measure_var k) m in
  let x := Kalman.x_state k in
  let P := Kalman.P_cov k in
  let y' := residual z (mdot H x) in
  let S' := innovation_cov H P R' in
  linalg_inv S' = ok SI ->
  nrows SI = m -> ncols SI = m ->
  let K' := gain H P SI in
  let x' := madd x (mdot K' y') in
  let P' := joseph (np.identity n) K' H P R' in
  Kalman.update linalg_inv (Some z) R (Some H) k =
  (ok tt,
   Kalman.set_P_post P'
     (Kalman.set_x_post x'
        (Kalman.set_z_measure (recorded z m)
           (Kalman.set_P_cov P'
              (Kalman.set_x_state x'
                 (Kalman.set_K K'
                    (Kalman.set_SI SI
                       (Kalman.set_S S'
                          (Kalman.set_y y' (invalidated k)))))))))).
Proof.
  cbv zeta. intros Hk Hz HR HH Hinv HSIr HSIc.
  destruct Hk as (Hds & Hdm & Hx & HP & HQs & HFs & HHs & HRs & HI & Hzm
                  & Hxp & HPp & Hxo & HPo).
  destruct (default_noise_shape R HR HRs) as [HRr HRc].
  destruct Hx as (Hxr & Hxc & Hxw), HP as (HPr & HPc & HPw).
  destruct HH as (HHr & HHc & _).
  destruct Hzm as (Hzr & Hzc & _).
  destruct Hxo as (Hxor & Hxoc & _), HPo as (HPor & HPoc & _).
  unfold innovation_cov in Hinv.
  unfold Kalman.update, bind, gets, lift, modify, ret.
  cbn.
  rewrite resolve_noise_conforming with (n := m) by exact Hdm.
  fold (invalidated k). cbn.
  rewrite (dot_aligned H (Kalman.x_state k)) by congruence. cbn.
  rewrite subtract_measurement with (m := m) by (try assumption; shapes). cbn.
  do 2 (rewrite dot_aligned by shapes; cbn).
  rewrite add_same_shape by shapes. cbn.
  rewrite Hinv. cbn.
  do 2 (rewrite dot_aligned by shapes; cbn).
  rewrite add_same_shape by shapes. cbn.
  rewrite dot_aligned by shapes. cbn.
  rewrite HI.
  rewrite subtract_same_shape by shapes. cbn.
  do 4 (rewrite dot_aligned by shapes; cbn).
  rewrite add_same_shape by shapes. cbn.
  rewrite copyto_measurement with (m := m) by assumption. cbn.
  rewrite copyto_same_shape by shapes. cbn.
  rewrite copyto_same_shape by shapes.
  reflexivity.
Qed.

(** C3.  On a filter whose arrays have the shapes of its dimensions, for a
    measurement [z] (not [None]), a measurement matrix [H] handed to the
    call and a noise argument [R] resolved to [R'] (the stored
    [R_measure_var], [eye(m) * R] for a number, or the given array), and
    when the inverse of [S] is delivered as [SI]: [update(z, R, H)] returns
    normally with [y = z - H x], [S = H P H^T + R'], [K = P H^T SI],
    [x_state = x + K y] and [P_cov] in the Joseph form
    [(I - K H) P (I - K H)^T + K R' K^T], where [x] and [P] are the state
    and covariance the call found; [z_measure], [x_post] and [P_post]
    receive [z] and the new state and covariance. *)
Theorem Kalman_update_correct (linalg_inv : matrix -> result matrix)
        (k : Kalman.t) (n m : nat) (z : value) (R : option value)
        (H SI : matrix) :
  conforms k n m ->
  measurement_shaped z m ->
  noise_shaped R m ->
  shaped H m n ->
  let R' := default_noise R (Kalman.R_measure_var k) m in
  let x := Kalman.x_state k in
  let P := Kalman.P_cov k in
  let I_ := np.identity n in
  let y' := residual z (mdot H x) in
  let S' := madd (mdot H (mdot P (transpose H))) R' in
  linalg_inv S' = ok SI ->
  nrows SI = m -> ncols SI = m ->
  let K' := mdot (mdot P (transpose H)) SI in
  let x' := madd x (mdot K' y') in
  let P' := madd (mdot (mdot (msub I_ (mdot K' H)) P)
                       (transpose (msub I_ (mdot K' H))))
                 (mdot (mdot K' R') (transpose K')) in
  Kalman.update linalg_inv (Some z) R (Some H) k =
  (ok tt,
   Kalman.set_P_post P'
     (Kalman.set_x_post x'
        (Kalman.set_z_measure (recorded z m)
           (Kalman.set_P_cov P'
              (Kalman.set_x_state x'
                 (Kalman.set_K K'
                    (Kalman.set_SI SI
                       (Kalman.set_S S'
                          (Kalman.set_y y' (invalidated k)))))))))).
Proof.
  intros Hk Hz HR HH R' x P I_ y' S' Hinv HSIr HSIc.
  now apply (@update_run linalg_inv k n m z R H SI).
Qed.

Lemma update_skipped (linalg_inv : matrix -> result matrix)
      (k : Kalman.t) (n m : nat) (R : option value) (H : option matrix) :
  conforms k n m ->
  Kalman.update linalg_inv None R H k =
  (ok tt,
   Kalman.set_y (zero m 1)
     (Kalman.set_P_post (Kalman.P_cov k)
        (Kalman.set_x_post (Kalman.x_state k)
           (Kalman.set_z_measure (np.none_column (Z.of_nat m))
              (invalidated k))))).
Proof.
  intros Hk.
  destruct Hk as (Hds & Hdm & Hx & HP & HQs & HFs & HHs & HRs & HI & Hzm
                  & Hxp & HPp & Hxo & HPo).
  destruct Hx as (Hxr & Hxc & Hxw), HP as (HPr & HPc & HPw).
  destruct Hxo as (Hxor & Hxoc & _), HPo as (HPor & HPoc & _).
  unfold Kalman.update, bind, gets, lift, modify, ret.
  cbn. fold (invalidated k). rewrite Hdm.
  rewrite copyto_same_shape by (try assumption; congruence). cbn.
  rewrite copyto_same_shape by (try assumption; congruence). cbn.
  rewrite zeros_nonneg by lia. cbn.
  now rewrite Nat2Z.id.
Qed.

(** C4.  On a filter whose arrays have the shapes of its dimensions,
    [update(None, R, H)] returns normally and leaves [x_state] and [P_cov]
    as they were; [z_measure] is the column of [None]s again, [x_post] holds
    the current [x_state], [P_post] the current [P_cov], and the residual
    [y] is the zero column.  Apart from these and the dropped likelihood
    caches no attribute changes. *)
Theorem Kalman_update_without_measurement
        (linalg_inv : matrix -> result matrix)
        (k : Kalman.t) (n m : nat) (R : option value) (H : option matrix) :
  conforms k n m ->
  let k' := snd (Kalman.update linalg_inv None R H k) in
  fst (Kalman.update linalg_inv None R H k) = ok tt
  /\ Kalman.x_state k' = Kalman.x_state k
  /\ Kalman.P_cov k' = Kalman.P_cov k
  /\ Kalman.z_measure k' = np.none_column (Kalman.dim_measurement k)
  /\ Kalman.x_post k' = Kalman.x_state k
  /\ Kalman.P_post k' = Kalman.P_cov k
  /\ Kalman.y k' = zero m 1
  /\ k' = Kalman.set_y (Kalman.y k')
            (Kalman.set_P_post (Kalman.P_post k')
               (Kalman.set_x_post (Kalman.x_post k')
                  (Kalman.set_z_measure (Kalman.z_measure k')
                     (invalidated k)))).
Proof.
  intros Hk. cbv zeta.
  rewrite (@update_skipped linalg_inv k n m R H Hk).
  destruct Hk as (_ & Hdm & _). rewrite Hdm.
  cbn. repeat split; reflexivity.
Qed.

Lemma update_default_H (linalg_inv : matrix -> result matrix)
      (k : Kalman.t) (z : value) (R : option value) :
  (0 <= Kalman.dim_measurement k)%Z ->
  Kalman.update linalg_inv (Some z) R None k =
  (err (AttributeError "numpy" "reshape_z"), invalidated k).
Proof.
  intros Hm.
  unfold Kalman.update, bind, gets, lift, modify, ret. cbn.
  rewrite resolve_noise_conforming
    with (n := Z.to_nat (Kalman.dim_measurement k)) by now rewrite Z2Nat.id.
  reflexivity.
Qed.

(** C5.  On a filter with a non-negative [dim_measurement], every
    [update(z, R)] with a measurement [z] (not [None]) and [H] left at
    [None] raises [AttributeError]: NumPy has no [reshape_z].  Nothing has
    been computed by then; the filter is as it was, except that the
    likelihood caches are dropped. *)
Theorem Kalman_update_default_H_raises
        (linalg_inv : matrix -> result matrix)
        (k : Kalman.t) (z : value) (R : option value) :
  (0 <= Kalman.dim_measurement k)%Z ->
  Kalman.update linalg_inv (Some z) R None k =
  (err (AttributeError "numpy" "reshape_z"), invalidated k).
Proof. apply update_default_H. Qed.

(** ** [Kalman.residual_of] and the [alpha] property *)

Lemma residual_of_NameError (k : Kalman.t) (z : value) :
  Kalman.residual_of z k = (err (NameError "dot"), k).
Proof. reflexivity. Qed.

(** C10 (the code departs from the claim).  [residual_of(z)] never returns
    [z - H_measure x_prior]: the unqualified name [dot] is not bound, so the
    call raises [NameError] for every filter and every [z].  The filter is
    left unchanged. *)
Theorem Kalman_residual_of_raises (k : Kalman.t) (z : value) :
  Kalman.residual_of z k = (err (NameError "dot"), k).
Proof. apply residual_of_NameError. Qed.

(** The range of floats is not reached by small numbers. *)
Lemma float_overflow_large : 4 <= float_overflow.
Proof.
  unfold float_overflow. apply IZR_le.
  apply Zle_bool_imp_le. vm_compute. reflexivity.
Qed.



Lemma set_alpha_float (k : Kalman.t) (x : R) :
  1 <= x -> x ^ 2 < float_overflow ->
  Kalman.set_alpha (PyFloat x) k = (ok tt, Kalman.set_alpha_sq (x ^ 2) k).
Proof.
  intros Hx Hr. unfold Kalman.set_alpha, bind, lift, float_square; cbn.
  destruct (Rlt_dec x 1); [lra|].
  unfold float_square. destruct (Rle_dec float_overflow (x ^ 2)); [lra|reflexivity].
Qed.










(** ** The history buffer of [Filter_IIR] *)

Lemma lastn_length (A : Type) (n : nat) (l : list A) :
  (length (lastn n l) <= n)%nat.
Proof. unfold lastn. rewrite length_skipn. lia. Qed.

Lemma lastn_short (A : Type) (n : nat) (l : list A) :
  (length l <= n)%nat -> lastn n l = l.
Proof.
  intros H. unfold lastn. replace (length l - n)%nat with 0%nat by lia.
  reflexivity.
Qed.

Lemma lastn_app_lastn (A : Type) (n : nat) (l r : list A) :
  lastn n (lastn n l ++ r) = lastn n (l ++ r).
Proof.
  destruct (Nat.le_gt_cases (length l) n) as [Hle|Hgt].
  - now rewrite (lastn_short l Hle).
  - unfold lastn. rewrite !length_app, length_skipn, !skipn_app, skipn_skipn,
      length_skipn.
    f_equal; f_equal; lia.
Qed.

Lemma lastn_snoc (A : Type) (n : nat) (l : list A) (x : A) :
  lastn (S n) (l ++ [x]) = (lastn n l ++ [x])%list.
Proof.
  unfold lastn. rewrite length_app, skipn_app. cbn [length].
  replace (length l + 1 - S n)%nat with (length l - n)%nat by lia.
  replace (length l - n - length l)%nat with 0%nat by lia.
  reflexivity.
Qed.

Lemma lastn_lastn (A : Type) (n p : nat) (l : list A) :
  (n <= p)%nat -> lastn n (lastn p l) = lastn n l.
Proof.
  intros H. unfold lastn. rewrite length_skipn, skipn_skipn. f_equal. lia.
Qed.

Lemma deque_append_window (n : nat) (l : list R) (x : R) :
  (length l <= n)%nat ->
  deque_append x (mk_deque (Some n) l) = mk_deque (Some n) (lastn n (l ++ [x])).
Proof.
  intros Hl. unfold deque_append; cbn [maxlen items]. f_equal.
  rewrite length_app; cbn [length].
  destruct (Nat.ltb_spec n (length l + 1)) as [Hfull|Hroom].
  - unfold lastn. rewrite length_app; cbn [length].
    replace (length l + 1 - n)%nat with 1%nat by lia. reflexivity.
  - symmetry. apply lastn_short. rewrite length_app; cbn [length]. lia.
Qed.

Section Filter_IIR_properties.

Variables design coefficients entry : Type.
Variable iirfilter : string -> string -> design -> result coefficients.
Variable getitem : coefficients -> Z -> result entry.
Variable lfilter : entry -> entry -> list R -> Z -> result (list R).
Variable sosfilt : coefficients -> list R -> Z -> result (list R).

Local Abbreviation filter := (Filter_IIR.t coefficients).
Local Abbreviation process := (Filter_IIR.process getitem lfilter sosfilt).
Local Abbreviation filtered := (Filter_IIR.filtered getitem lfilter sosfilt).
Local Abbreviation feed := (Filter_IIR.feed getitem lfilter sosfilt).
Local Abbreviation init := (Filter_IIR.__init__ iirfilter).
Local Abbreviation holding := (@Filter_IIR.holding coefficients).

Lemma process_unfold (x : R) (f : filter) :
  process x f =
  (filtered (Filter_IIR.set_buffer (deque_append x (Filter_IIR.buffer f)) f),
   Filter_IIR.set_buffer (deque_append x (Filter_IIR.buffer f)) f).
Proof. reflexivity. Qed.

Lemma holding_holding (n : nat) (w w' : list R) (f : filter) :
  holding n w' (holding n w f) = holding n w' f.
Proof. reflexivity. Qed.

Lemma process_holding (n : nat) (w : list R) (x : R) (f : filter) :
  (length w <= n)%nat ->
  process x (holding n w f) =
  (filtered (holding n (lastn n (w ++ [x])) f), holding n (lastn n (w ++ [x])) f).
Proof.
  intros Hw. rewrite process_unfold. unfold holding at 1 3.
  cbn [Filter_IIR.buffer Filter_IIR.set_buffer].
  rewrite deque_append_window by assumption. reflexivity.
Qed.

Lemma feed_holding (n : nat) (xs w : list R) (f : filter) :
  (length w <= n)%nat ->
  snd (feed xs (holding n w f)) = holding n (lastn n (w ++ xs)) f.
Proof.
  revert w. induction xs as [|x xs IH]; intros w Hw.
  - cbn. now rewrite app_nil_r, lastn_short.
  - cbn [Filter_IIR.feed]. rewrite process_holding by assumption.
    destruct (feed xs (holding n (lastn n (w ++ [x])) f)) as [outs f'] eqn:E.
    cbn [snd]. change f' with (snd (outs, f')). rewrite <- E.
    rewrite IH by apply lastn_length.
    rewrite lastn_app_lastn, <- app_assoc. reflexivity.
Qed.

Lemma init_holding (ftype : string) (n : nat) (coef_type : string) (axis : Z)
      (kwargs : design) (f : filter) :
  init ftype (Some (Z.of_nat n)) coef_type axis kwargs = ok f ->
  f = holding n [] f /\ Filter_IIR.coef_type f = coef_type.
Proof.
  unfold Filter_IIR.__init__, rbind, deque_new.
  destruct (iirfilter ftype coef_type kwargs) as [e|c]; [discriminate|].
  destruct ((Z.of_nat n <? ssize_t_min) || (ssize_t_max <? Z.of_nat n))%Z;
    [discriminate|].
  destruct (Z.ltb_spec (Z.of_nat n) 0) as [Hneg|_]; [lia|].
  unfold ok. intros [= <-]. rewrite Nat2Z.id. split; reflexivity.
Qed.

Lemma feed_window (ftype : string) (n : nat) (coef_type : string) (axis : Z)
      (kwargs : design) (f : filter) (xs : list R) :
  init ftype (Some (Z.of_nat n)) coef_type axis kwargs = ok f ->
  snd (feed xs f) = holding n (lastn n xs) f.
Proof.
  intros Hf. destruct (init_holding _ _ _ _ _ Hf) as [Hfresh _].
  rewrite Hfresh at 1. rewrite feed_holding by (cbn; lia). reflexivity.
Qed.

(** C7.  For a filter constructed with [buffer_size = n], after any
    sequence [xs] of [process] calls the buffer holds at most [n] samples,
    namely the last [n] of [xs]; the next call [process(x)] returns what the
    filter step gives on a buffer holding only the last [n] samples of
    [xs ++ [x]], and (for [n >= 1]) the same outcome as when only the last
    [n - 1] samples of [xs] had ever been fed before [x]. *)
Theorem Filter_IIR_buffer_window (ftype : string) (n : nat)
        (coef_type : string) (axis : Z) (kwargs : design) (f : filter)
        (xs : list R) (x : R) :
  init ftype (Some (Z.of_nat n)) coef_type axis kwargs = ok f ->
  let f' := snd (feed xs f) in
  (length (items (Filter_IIR.buffer f')) <= n)%nat
  /\ items (Filter_IIR.buffer f') = lastn n xs
  /\ process x f' =
     (filtered (holding n (lastn n (xs ++ [x])) f),
      holding n (lastn n (xs ++ [x])) f)
  /\ ((1 <= n)%nat ->
      fst (process x f') = fst (process x (snd (feed (lastn (n - 1) xs) f)))).
Proof.
  intros Hf f'. subst f'. erewrite feed_window by eassumption.
  split; [apply lastn_length|]. split; [reflexivity|].
  split.
  - rewrite process_holding by apply lastn_length.
    now rewrite lastn_app_lastn.
  - intros Hn. rewrite (@feed_window ftype n coef_type axis kwargs f (lastn (n - 1) xs) Hf).
    rewrite !process_holding by apply lastn_length.
    cbn [fst]. rewrite !lastn_app_lastn.
    destruct n as [|n']; [lia|].
    replace (S n' - 1)%nat with n' by lia.
    rewrite !lastn_snoc, lastn_lastn by lia. reflexivity.
Qed.

Lemma filtered_unrecognised (f : filter) :
  Filter_IIR.coef_type f <> "ba"%string ->
  Filter_IIR.coef_type f <> "sos"%string ->
  filtered f = ok None.
Proof.
  intros Hba Hsos. unfold Filter_IIR.filtered.
  destruct (String.eqb_spec (Filter_IIR.coef_type f) "ba"); [contradiction|].
  destruct (String.eqb_spec (Filter_IIR.coef_type f) "sos"); [contradiction|].
  reflexivity.
Qed.

Lemma feed_unrecognised (xs : list R) (f : filter) :
  Filter_IIR.coef_type f <> "ba"%string ->
  Filter_IIR.coef_type f <> "sos"%string ->
  Forall (fun out => out = ok None) (fst (feed xs f)).
Proof.
  revert f. induction xs as [|x xs IH]; intros f Hba Hsos.
  - constructor.
  - cbn [Filter_IIR.feed]. rewrite process_unfold.
    destruct (feed xs _) as [outs f'] eqn:E. cbn [fst].
    constructor.
    + now apply filtered_unrecognised.
    + change outs with (fst (outs, f')). rewrite <- E. now apply IH.
Qed.

(** C6 (as amended).  [Filter_IIR] has no check of [coef_type] of its own.
    For a [coef_type] other than ['ba'] and ['sos']: when
    [signal.iirfilter] rejects it, the construction raises that error; when
    [signal.iirfilter] accepts it, the construction succeeds (given a valid
    [buffer_size]), and every later [process] call returns [None] without
    raising. *)
Theorem Filter_IIR_coef_type_unchecked (ftype : string)
        (buffer_size : option Z) (coef_type : string) (axis : Z)
        (kwargs : design) :
  coef_type <> "ba"%string -> coef_type <> "sos"%string ->
  (forall e, iirfilter ftype coef_type kwargs = err e ->
             init ftype buffer_size coef_type axis kwargs = err e)
  /\ (forall c b, iirfilter ftype coef_type kwargs = ok c ->
                  deque_new buffer_size = ok b ->
                  init ftype buffer_size coef_type axis kwargs =
                  ok (Filter_IIR.mk ftype coef_type axis c b))
  /\ (forall f, init ftype buffer_size coef_type axis kwargs = ok f ->
                forall xs, Forall (fun out => out = ok None) (fst (feed xs f))).
Proof.
  intros Hba Hsos. split; [|split].
  - intros e He. unfold Filter_IIR.__init__. now rewrite He.
  - intros c b Hc Hb. unfold Filter_IIR.__init__. now rewrite Hc, Hb.
  - intros f Hf xs.
    assert (Hct : Filter_IIR.coef_type f = coef_type).
    { revert Hf. unfold Filter_IIR.__init__, rbind.
      destruct (iirfilter ftype coef_type kwargs); [discriminate|].
      destruct (deque_new buffer_size); [discriminate|].
      unfold ok. now intros [= <-]. }
    apply feed_unrecognised; now rewrite Hct.
Qed.

End Filter_IIR_properties.

(** ** Matrix identities *)

Lemma rsum_ext (n : nat) (f g : nat -> R) :
  (forall k, (k < n)%nat -> f k = g k) -> rsum n f = rsum n g.
Proof.
  induction n as [|n IH]; intros H; cbn; [reflexivity|].
  rewrite IH by (intros k Hk; apply H; lia). rewrite H by lia. reflexivity.
Qed.

Lemma rsum_zero (n : nat) : rsum n (fun _ => 0) = 0.
Proof. induction n as [|n IH]; cbn; [reflexivity|]. rewrite IH. lra. Qed.

Lemma rsum_pick (n i : nat) (f : nat -> R) :
  (i < n)%nat ->
  rsum n (fun k => (if Nat.eqb i k then 1 else 0) * f k) = f i.
Proof.
  induction n as [|n IH]; intros Hi; [lia|]. cbn [rsum].
  destruct (Nat.eqb_spec i n) as [->|Hne].
  - rewrite rsum_ext with (g := fun _ => 0).
    + rewrite rsum_zero. lra.
    + intros k Hk. destruct (Nat.eqb_spec n k); [lia|lra].
  - rewrite IH by lia. lra.
Qed.

Lemma at_build (r c : nat) (f : nat -> nat -> R) (i j : nat) :
  (i < r)%nat -> (j < c)%nat -> at_ (build r c f) i j = f i j.
Proof. apply item_build. Qed.

Lemma matrix_ext (a : matrix) (r c : nat) (f : nat -> nat -> R) :
  shaped a r c ->
  (forall i j, (i < r)%nat -> (j < c)%nat -> f i j = at_ a i j) ->
  build r c f = a.
Proof.
  intros (Hr & Hc & Hwf) H. rewrite <- (build_item 0 Hwf), Hr, Hc.
  now apply build_ext.
Qed.

Lemma identity_shaped (n : nat) : shaped (np.identity n) n n.
Proof. apply shaped_build. Qed.

Lemma zero_shaped (r c : nat) : shaped (zero r c) r c.
Proof. apply shaped_build. Qed.

Lemma mdot_identity_l (a : matrix) (n c : nat) :
  shaped a n c -> mdot (np.identity n) a = a.
Proof.
  intros Ha. pose proof Ha as (Hr & Hc & _).
  unfold mdot, np.identity. cbn [nrows ncols build]. rewrite Hc.
  apply matrix_ext; [assumption|]. intros i j Hi Hj.
  rewrite <- (rsum_pick (fun k => at_ a k j) Hi).
  apply rsum_ext. intros k Hk. now rewrite at_build.
Qed.

Lemma transpose_identity (n : nat) : transpose (np.identity n) = np.identity n.
Proof.
  unfold transpose, np.identity. cbn [nrows ncols build].
  apply build_ext. intros i j Hi Hj. rewrite at_build by assumption.
  now rewrite Nat.eqb_sym.
Qed.

Lemma mdot_identity_r (a : matrix) (r n : nat) :
  shaped a r n -> mdot a (np.identity n) = a.
Proof.
  intros Ha. pose proof Ha as (Hr & Hc & _).
  unfold mdot, np.identity. cbn [nrows ncols build]. rewrite Hr, Hc.
  apply matrix_ext; [assumption|]. intros i j Hi Hj.
  rewrite <- (rsum_pick (fun k => at_ a i k) Hj).
  apply rsum_ext. intros k Hk. rewrite at_build by assumption.
  rewrite Nat.eqb_sym. lra.
Qed.

Lemma madd_zero_r (a : matrix) (r c : nat) :
  shaped a r c -> madd a (zero r c) = a.
Proof.
  intros Ha. pose proof Ha as (Hr & Hc & _).
  unfold madd, elementwise, zero. cbn [nrows ncols build]. rewrite Hr, Hc.
  apply matrix_ext; [assumption|]. intros i j Hi Hj.
  rewrite !bidx_lt, at_build by assumption. lra.
Qed.

Lemma residual_self (a : matrix) (r c : nat) :
  nrows a = r -> ncols a = c -> residual (Arr a) a = zero r c.
Proof.
  intros Hr Hc. unfold residual, elementwise, zero, asarray. rewrite Hr, Hc.
  apply build_ext. intros i j Hi Hj. lra.
Qed.

Lemma msub_self (a : matrix) (r c : nat) :
  nrows a = r -> ncols a = c -> msub a a = zero r c.
Proof.
  intros Hr Hc. unfold msub, elementwise, zero. rewrite Hr, Hc.
  apply build_ext. intros i j Hi Hj. lra.
Qed.

Lemma mdot_zero_l (a : matrix) (r n : nat) :
  mdot (zero r n) a = zero r (ncols a).
Proof.
  unfold mdot, zero. cbn [nrows ncols build].
  apply build_ext. intros i j Hi Hj.
  rewrite rsum_ext with (g := fun _ => 0); [apply rsum_zero|].
  intros k Hk. rewrite at_build by assumption. lra.
Qed.

Lemma mdot_zero_r (a : matrix) (n c : nat) :
  ncols a = n -> mdot a (zero n c) = zero (nrows a) c.
Proof.
  intros Hc. unfold mdot, zero. cbn [nrows ncols build]. rewrite Hc.
  apply build_ext. intros i j Hi Hj.
  rewrite rsum_ext with (g := fun _ => 0); [apply rsum_zero|].
  intros k Hk. rewrite at_build by assumption. lra.
Qed.

Lemma transpose_zero (r c : nat) : transpose (zero r c) = zero c r.
Proof.
  unfold transpose, zero. cbn [nrows ncols build].
  apply build_ext. intros i j Hi Hj. now rewrite at_build.
Qed.

Lemma predicted_cov_identity (s : R) (p : matrix) (n : nat) :
  shaped p n n ->
  predicted_cov s (np.identity n) p (zero n n) = mscale s p.
Proof.
  intros Hp. pose proof Hp as (Hr & Hc & _). unfold predicted_cov.
  rewrite transpose_identity, (mdot_identity_l Hp), (mdot_identity_r Hp).
  apply madd_zero_r. unfold mscale. rewrite Hr, Hc. apply shaped_build.
Qed.

Lemma innovation_cov_identity (p : matrix) (n : nat) :
  shaped p n n ->
  innovation_cov (np.identity n) p (zero n n) = p.
Proof.
  intros Hp. unfold innovation_cov.
  rewrite transpose_identity, (mdot_identity_r Hp), (mdot_identity_l Hp).
  now apply madd_zero_r.
Qed.

Lemma zero_not_identity (n : nat) : zero (S n) (S n) <> np.identity (S n).
Proof.
  intros E. assert (H : at_ (zero (S n) (S n)) 0 0 = at_ (np.identity (S n)) 0 0)
    by now rewrite E.
  unfold zero, np.identity in H. rewrite !at_build in H by lia.
  cbn [Nat.eqb] in H. lra.
Qed.

(** ** A noiseless observation of an unmoving system *)

Lemma predict_noiseless (k : Kalman.t) (n : nat) :
  conforms k n n ->
  Kalman.F_state_trans k = np.identity n ->
  Kalman.Q_proc_var k = zero n n ->
  let P1 := mscale (Kalman._alpha_sq k) (Kalman.P_cov k) in
  let k1 := Kalman.set_P_prior P1
              (Kalman.set_x_prior (Kalman.x_state k)
                 (Kalman.set_P_cov P1
                    (Kalman.set_x_state (Kalman.x_state k) k))) in
  Kalman.predict None None None None k = (ok tt, k1) /\ conforms k1 n n.
Proof.
  intros Hk HF HQ P1 k1.
  assert (Hrun := @predict_run k n n None None None None Hk I I).
  pose proof Hk as (Hds & Hdm & Hx & HP & HQs & HFs & HH & HR & HI & Hz
                  & Hxp & HPp & Hxo & HPo).
  split.
  - rewrite Hrun.
    + unfold default, default_noise, or_stored, predicted_state.
      rewrite HF, HQ, (predicted_cov_identity _ HP).
      destruct (Kalman.B_control k); rewrite (mdot_identity_l Hx); reflexivity.
    + unfold control_fits, or_stored. now destruct (Kalman.B_control k).
  - assert (HP1 : shaped P1 n n).
    { subst P1. unfold mscale. destruct HP as (-> & -> & _). apply shaped_build. }
    subst k1. unfold conforms. cbn.
    repeat split; try assumption;
      first [apply Hx | apply HP | apply HQs | apply HFs | apply HH | apply HR
             | apply Hz | apply Hxo | apply HPo | apply HP1].
Qed.

Lemma update_noiseless (linalg_inv : matrix -> result matrix)
      (k : Kalman.t) (n : nat) (SI : matrix) :
  conforms k n n ->
  Kalman.R_measure_var k = zero n n ->
  linalg_inv (Kalman.P_cov k) = ok SI ->
  nrows SI = n -> ncols SI = n ->
  mdot (Kalman.P_cov k) SI = np.identity n ->
  exists k2,
    Kalman.update linalg_inv (Some (Arr (Kalman.x_state k))) None
                  (Some (np.identity n)) k = (ok tt, k2)
    /\ Kalman.x_state k2 = Kalman.x_state k
    /\ Kalman.P_cov k2 = zero n n.
Proof.
  intros Hk HR Hinv HSIr HSIc Hright.
  pose proof Hk as (Hds & Hdm & Hx & HP & HQs & HFs & HH & HRs & HI & Hz
                  & Hxp & HPp & Hxo & HPo).
  assert (HS : innovation_cov (np.identity n) (Kalman.P_cov k)
                 (default_noise None (Kalman.R_measure_var k) n)
               = Kalman.P_cov k).
  { unfold default_noise. rewrite HR. now apply innovation_cov_identity. }
  assert (Hrun := @update_run linalg_inv k n n (Arr (Kalman.x_state k)) None
                    (np.identity n) SI Hk Hx I (identity_shaped n)).
  cbv zeta in Hrun. rewrite HS in Hrun.
  specialize (Hrun Hinv HSIr HSIc).
  eexists. split; [exact Hrun|]. cbn.
  assert (HK : gain (np.identity n) (Kalman.P_cov k) SI = np.identity n).
  { unfold gain. now rewrite transpose_identity, (mdot_identity_r HP). }
  rewrite HK. unfold default_noise. rewrite HR.
  destruct Hx as (Hxr & Hxc & Hxw).
  split.
  - rewrite (mdot_identity_l (conj Hxr (conj Hxc Hxw))).
    rewrite residual_self with (r := n) (c := 1%nat) by assumption.
    rewrite (mdot_identity_l (zero_shaped n 1)).
    now apply madd_zero_r.
  - unfold joseph.
    rewrite (mdot_identity_l (identity_shaped n)).
    rewrite msub_self with (r := n) (c := n) by reflexivity.
    rewrite mdot_zero_l, transpose_zero.
    destruct HP as (HPr & HPc & HPw). rewrite HPc.
    rewrite mdot_zero_r with (n := n) by reflexivity.
    rewrite (mdot_identity_l (zero_shaped n n)), transpose_identity.
    rewrite (mdot_identity_r (zero_shaped n n)).
    apply madd_zero_r. apply zero_shaped.
Qed.

Lemma noiseless_cycle (linalg_inv : matrix -> result matrix)
      (k : Kalman.t) (n : nat) (SI : matrix) :
  conforms k n n ->
  Kalman.H_measure k = np.identity n ->
  Kalman.F_state_trans k = np.identity n ->
  Kalman.Q_proc_var k = zero n n ->
  Kalman.R_measure_var k = zero n n ->
  linalg_inv (mscale (Kalman._alpha_sq k) (Kalman.P_cov k)) = ok SI ->
  nrows SI = n -> ncols SI = n ->
  mdot (mscale (Kalman._alpha_sq k) (Kalman.P_cov k)) SI = np.identity n ->
  exists k1 k2,
    Kalman.predict None None None None k = (ok tt, k1)
    /\ Kalman.update linalg_inv (Some (Arr (Kalman.x_prior k1))) None
                     (Some (Kalman.H_measure k)) k1 = (ok tt, k2)
    /\ Kalman.x_state k2 = Kalman.x_state k
    /\ Kalman.P_cov k2 = zero n n.
Proof.
  intros Hk HH HF HQ HR Hinv HSIr HSIc Hright.
  destruct (predict_noiseless Hk HF HQ) as [Hp Hk1].
  cbv zeta in Hp, Hk1.
  eexists.
  destruct (@update_noiseless linalg_inv _ n SI Hk1 HR Hinv HSIr HSIc Hright)
    as (k2 & Hu & Hx2 & HP2).
  exists k2. split; [exact Hp|]. rewrite HH.
  split; [exact Hu|]. split; [exact Hx2|exact HP2].
Qed.

(** C8 (as amended).  On a filter with [H = I], [F = I], [Q = 0], [R = 0]
    (state and measurement dimension [n]), [predict()] followed by
    [update(z, H=H)] with the state prior as the measurement [z], [H] being
    handed to the call, returns normally whenever the inverse [SI] of the
    innovation covariance [alpha_sq * P] is delivered; [x_state] is left as
    it was, and [P_cov] becomes the zero matrix. *)
Theorem Kalman_noiseless_observation (linalg_inv : matrix -> result matrix)
        (k : Kalman.t) (n : nat) (SI : matrix) :
  conforms k n n ->
  Kalman.H_measure k = np.identity n ->
  Kalman.F_state_trans k = np.identity n ->
  Kalman.Q_proc_var k = zero n n ->
  Kalman.R_measure_var k = zero n n ->
  linalg_inv (mscale (Kalman._alpha_sq k) (Kalman.P_cov k)) = ok SI ->
  nrows SI = n -> ncols SI = n ->
  mdot (mscale (Kalman._alpha_sq k) (Kalman.P_cov k)) SI = np.identity n ->
  let k1 := snd (Kalman.predict None None None None k) in
  let measured :=
    Kalman.update linalg_inv (Some (Arr (Kalman.x_prior k1))) None
                  (Some (Kalman.H_measure k)) k1 in
  fst (Kalman.predict None None None None k) = ok tt
  /\ fst measured = ok tt
  /\ Kalman.x_state (snd measured) = Kalman.x_state k
  /\ Kalman.P_cov (snd measured) = zero n n.
Proof.
  intros Hk HH HF HQ HR Hinv HSIr HSIc Hright.
  destruct (@noiseless_cycle linalg_inv k n SI Hk HH HF HQ HR Hinv HSIr HSIc Hright)
    as (k1 & k2 & Hp & Hu & Hx2 & HP2).
  cbv zeta. rewrite Hp. cbn [fst snd]. rewrite Hu. cbn [fst snd].
  repeat split; assumption.
Qed.

(** ** The example filter *)

Lemma noiseless_conforms : conforms noiseless 1 1.
Proof.
  unfold conforms, noiseless, one, nil1. cbn.
  repeat split; try reflexivity; apply wf_build.
Qed.

Lemma exact_inv_unit (a : matrix) :
  nrows a = 1%nat -> ncols a = 1%nat -> at_ a 0 0 = 1 ->
  exact_inv a = ok (adjugate_inverse a)
  /\ nrows (adjugate_inverse a) = 1%nat
  /\ ncols (adjugate_inverse a) = 1%nat
  /\ mdot a (adjugate_inverse a) = np.identity 1.
Proof.
  intros Hr Hc Ha.
  assert (Hdet : det 1 (at_ a) = 1).
  { cbn [det rsum]. rewrite Ha. cbn [pow]. lra. }
  split; [|split; [|split]].
  - unfold exact_inv. rewrite Hr, Hc. cbn [Nat.eqb].
    destruct (Req_EM_T (det 1 (at_ a)) 0) as [E|_]; [|reflexivity].
    rewrite Hdet in E. lra.
  - unfold adjugate_inverse. now rewrite Hr.
  - unfold adjugate_inverse. now rewrite Hr.
  - unfold mdot, adjugate_inverse, np.identity. rewrite Hr, Hc.
    cbn [nrows ncols build].
    apply build_ext. intros i j Hi Hj.
    assert (i = 0%nat) by lia. assert (j = 0%nat) by lia. subst.
    cbn [rsum]. rewrite at_build by lia. rewrite Hdet, Ha.
    unfold cofactor. cbn. field.
Qed.

Lemma at_identity_diagonal (n i : nat) :
  (i < n)%nat -> at_ (np.identity n) i i = 1.
Proof.
  intros Hi. unfold np.identity. rewrite at_build by assumption.
  now rewrite Nat.eqb_refl.
Qed.

Lemma at_mscale (s : R) (a : matrix) (i j : nat) :
  (i < nrows a)%nat -> (j < ncols a)%nat ->
  at_ (mscale s a) i j = s * at_ a i j.
Proof. intros Hi Hj. unfold mscale. now rewrite at_build. Qed.

Lemma noiseless_innovation :
  nrows (mscale 1 (np.identity 1)) = 1%nat
  /\ ncols (mscale 1 (np.identity 1)) = 1%nat
  /\ at_ (mscale 1 (np.identity 1)) 0 0 = 1.
Proof.
  split; [reflexivity|]. split; [reflexivity|].
  rewrite at_mscale by (unfold np.identity, build; cbn; lia).
  rewrite at_identity_diagonal by lia. lra.
Qed.

Lemma noiseless_run :
  Kalman.predict None None None None noiseless = (ok tt, noiseless_predicted)
  /\ Kalman.update exact_inv
                   (Some (Arr (Kalman.x_prior noiseless_predicted))) None
                   (Some (Kalman.H_measure noiseless)) noiseless_predicted
     = (ok tt, noiseless_updated)
  /\ Kalman.x_state noiseless_updated = Kalman.x_state noiseless
  /\ Kalman.P_cov noiseless_updated = zero 1 1.
Proof.
  destruct noiseless_innovation as (Hr & Hc & Ha).
  destruct (exact_inv_unit _ Hr Hc Ha) as (Hinv & HSIr & HSIc & Hright).
  destruct (@noiseless_cycle exact_inv noiseless 1 _ noiseless_conforms
              eq_refl eq_refl eq_refl eq_refl Hinv HSIr HSIc Hright)
    as (k1 & k2 & Hp & Hu & Hx2 & HP2).
  unfold noiseless_updated, noiseless_predicted.
  rewrite Hp. cbn [snd]. rewrite Hu. cbn [snd].
  repeat split; assumption.
Qed.

(** C8 as stated fails on the one-dimensional filter with [P_cov = I]:
    after [predict()] and [update(z, H=H_measure)] with the prior as [z],
    [x_state] is unchanged but [P_cov] is [0], not [I].  (All numbers
    involved are 0 or 1, so no rounding is involved either.)  With [H]
    left to its default the cycle does not complete at all. *)
Lemma Kalman_noiseless_covariance_collapses :
  (Kalman.H_measure noiseless = np.identity 1
   /\ Kalman.F_state_trans noiseless = np.identity 1
   /\ Kalman.Q_proc_var noiseless = zero 1 1
   /\ Kalman.R_measure_var noiseless = zero 1 1)
  /\ fst (Kalman.predict None None None None noiseless) = ok tt
  /\ fst (Kalman.update exact_inv
                        (Some (Arr (Kalman.x_prior noiseless_predicted))) None
                        (Some (Kalman.H_measure noiseless)) noiseless_predicted)
     = ok tt
  /\ Kalman.x_state noiseless_updated = Kalman.x_state noiseless
  /\ Kalman.P_cov noiseless = np.identity 1
  /\ Kalman.P_cov noiseless_updated = zero 1 1
  /\ Kalman.P_cov noiseless_updated <> Kalman.P_cov noiseless
  /\ fst (Kalman.process exact_inv (Some (Arr (Kalman.x_state noiseless)))
                         no_kwargs noiseless)
     = err (AttributeError "numpy" "reshape_z").
Proof.
  destruct noiseless_run as (Hp & Hu & Hx & HP).
  split; [repeat split|].
  rewrite Hp, Hu. cbn [fst].
  repeat (split; [first [reflexivity | assumption]|]).
  split.
  - rewrite HP. apply zero_not_identity.
  - destruct (predict_noiseless noiseless_conforms eq_refl eq_refl)
      as [Hp' Hk1].
    cbv zeta in Hp', Hk1.
    unfold Kalman.process, bind. cbn [Kalman.kw_u Kalman.kw_B Kalman.kw_F
      Kalman.kw_Q Kalman.kw_R Kalman.kw_H no_kwargs].
    rewrite Hp'. rewrite update_default_H; [reflexivity|].
    destruct Hk1 as (_ & -> & _). lia.
Qed.

(** ** Instances of the theorems *)

Lemma Kalman_construction_raises_witness :
  Kalman.__init__ 2 None 0 = err (NameError "zeros").
Proof.
  apply (@Kalman_construction_raises 2 None 0);
    unfold np.modest, np.dimension_limit; lia.
Defined.

Lemma Kalman_predict_correct_witness :
  exists k', Kalman.predict None None None None noiseless = (ok tt, k').
Proof.
  eexists.
  apply (@Kalman_predict_correct noiseless 1 1 None None None None
           noiseless_conforms I I I).
Defined.

Lemma noiseless_innovation_cov :
  innovation_cov (np.identity 1) (Kalman.P_cov noiseless)
                 (default_noise None (Kalman.R_measure_var noiseless) 1)
  = np.identity 1.
Proof. apply innovation_cov_identity, identity_shaped. Qed.

Lemma noiseless_inverse :
  exact_inv (innovation_cov (np.identity 1) (Kalman.P_cov noiseless)
               (default_noise None (Kalman.R_measure_var noiseless) 1))
  = ok (adjugate_inverse (np.identity 1)).
Proof.
  rewrite noiseless_innovation_cov.
  apply exact_inv_unit; reflexivity.
Qed.

Lemma Kalman_update_correct_witness :
  exists k', Kalman.update exact_inv (Some (Num 0)) None
                           (Some (np.identity 1)) noiseless = (ok tt, k').
Proof.
  eexists.
  apply (@Kalman_update_correct exact_inv noiseless 1 1 (Num 0) None
           (np.identity 1) (adjugate_inverse (np.identity 1))
           noiseless_conforms I I (identity_shaped 1)
           noiseless_inverse eq_refl eq_refl).
Defined.

Lemma Kalman_update_without_measurement_witness :
  Kalman.x_state (snd (Kalman.update exact_inv None None None noiseless))
  = Kalman.x_state noiseless.
Proof.
  apply (@Kalman_update_without_measurement exact_inv noiseless 1 1 None None
           noiseless_conforms).
Defined.

Lemma Kalman_update_default_H_raises_witness :
  Kalman.update exact_inv (Some (Num 0)) None None noiseless =
  (err (AttributeError "numpy" "reshape_z"), invalidated noiseless).
Proof.
  apply (@Kalman_update_default_H_raises exact_inv noiseless (Num 0) None).
  cbn. lia.
Defined.


Lemma Kalman_noiseless_observation_witness :
  Kalman.P_cov
    (snd (Kalman.update exact_inv
            (Some (Arr (Kalman.x_prior
                          (snd (Kalman.predict None None None None noiseless)))))
            None (Some (Kalman.H_measure noiseless))
            (snd (Kalman.predict None None None None noiseless))))
  = zero 1 1.
Proof.
  destruct noiseless_innovation as (Hr & Hc & Ha).
  destruct (exact_inv_unit _ Hr Hc Ha) as (Hinv & HSIr & HSIc & Hright).
  apply (@Kalman_noiseless_observation exact_inv noiseless 1 _
           noiseless_conforms eq_refl eq_refl eq_refl eq_refl
           Hinv HSIr HSIc Hright).
Defined.

Lemma ba_filter_constructed :
  Filter_IIR.__init__ scipy_iirfilter "butter" (Some (Z.of_nat 2)) "ba" 0 tt
  = ok ba_filter.
Proof. reflexivity. Qed.

Lemma zpk_filter_constructed :
  Filter_IIR.__init__ scipy_iirfilter "butter" (Some 256%Z) "zpk" 0 tt
  = ok zpk_filter.
Proof. reflexivity. Qed.

(** C6 as stated fails for [coef_type = 'zpk']: [signal.iirfilter] knows
    this output form, the construction succeeds, and [process] returns
    [None] without raising. *)
Lemma Filter_IIR_zpk_accepted :
  ("zpk" <> "ba" /\ "zpk" <> "sos")%string
  /\ Filter_IIR.__init__ scipy_iirfilter "butter" (Some 256%Z) "zpk" 0 tt
     = ok zpk_filter
  /\ fst (Filter_IIR.process scipy_getitem scipy_lfilter scipy_sosfilt
                             1 zpk_filter) = ok None.
Proof.
  split; [split; discriminate|]. split; reflexivity.
Qed.

Lemma Filter_IIR_coef_type_unchecked_witness :
  Forall (fun out => out = ok None)
         (fst (Filter_IIR.feed scipy_getitem scipy_lfilter scipy_sosfilt
                               [1; 2] zpk_filter)).
Proof.
  refine (proj2 (proj2
    (@Filter_IIR_coef_type_unchecked unit scipy_coefs scipy_entry
       scipy_iirfilter scipy_getitem scipy_lfilter scipy_sosfilt
       "butter" (Some 256%Z) "zpk" 0%Z tt _ _)) zpk_filter
    zpk_filter_constructed [1; 2]); discriminate.
Defined.

Lemma Filter_IIR_buffer_window_witness :
  items (Filter_IIR.buffer
           (snd (Filter_IIR.feed scipy_getitem scipy_lfilter scipy_sosfilt
                                 [1; 2; 3] ba_filter)))
  = lastn 2 [1; 2; 3].
Proof.
  apply (@Filter_IIR_buffer_window unit scipy_coefs scipy_entry
           scipy_iirfilter scipy_getitem scipy_lfilter scipy_sosfilt
           "butter" 2 "ba" 0%Z tt ba_filter [1; 2; 3] 4
           ba_filter_constructed).
Defined.

(** * Further properties *)

(** ** The shape invariant *)

Lemma shaped_intro (A : Type) (a : ndarray A) (r c : nat) :
  wf a -> nrows a = r -> ncols a = c -> shaped a r c.
Proof. intros Hw Hr Hc. unfold shaped. auto. Qed.

Lemma predict_predicted (k : Kalman.t) (n m : nat) (u B F : option matrix)
      (Q : option value) :
  conforms k n m ->
  given_shaped F n n ->
  noise_shaped Q n ->
  control_fits (or_stored B (Kalman.B_control k)) u n ->
  Kalman.predict u B F Q k = (ok tt, predicted k u B F Q n).
Proof.
  intros Hk HF HQ HB. unfold predicted. now apply predict_run with (m := m).
Qed.

Lemma predicted_state_shaped (F : matrix) (B u : option matrix) (x : matrix)
      (n : nat) :
  nrows F = n -> ncols x = 1%nat -> control_fits B u n ->
  shaped (predicted_state F B u x) n 1.
Proof.
  intros HF Hx HB. unfold predicted_state.
  destruct B as [b|], u as [u0|]; apply shaped_intro; shapes.
Qed.

Lemma predicted_cov_shaped (s : R) (F P Q : matrix) (n : nat) :
  nrows F = n -> shaped (predicted_cov s F P Q) n n.
Proof. intros HF. unfold predicted_cov. apply shaped_intro; shapes. Qed.

Lemma predicted_conforms (k : Kalman.t) (n m : nat) (u B F : option matrix)
      (Q : option value) :
  conforms k n m ->
  given_shaped F n n ->
  control_fits (or_stored B (Kalman.B_control k)) u n ->
  conforms (predicted k u B F Q n) n m.
Proof.
  intros Hk HF HB.
  destruct Hk as (Hds & Hdm & Hx & HP & HQs & HFs & HH & HR & HI & Hz
                  & Hxp & HPp & Hxo & HPo).
  destruct (default_shape F HF HFs) as [HFr HFc].
  assert (Hx' := @predicted_state_shaped _ _ u (Kalman.x_state k) n HFr
                   (proj1 (proj2 Hx)) HB).
  assert (HP' := @predicted_cov_shaped (Kalman._alpha_sq k) _ (Kalman.P_cov k)
                   (default_noise Q (Kalman.Q_proc_var k) n) n HFr).
  unfold predicted, conforms. cbn.
  repeat (split; [assumption|]). assumption.
Qed.

Lemma update_measured (linalg_inv : matrix -> result matrix)
      (k : Kalman.t) (n m : nat) (z : value) (R : option value)
      (H SI : matrix) :
  conforms k n m ->
  measurement_shaped z m ->
  noise_shaped R m ->
  shaped H m n ->
  linalg_inv (innovation_cov H (Kalman.P_cov k)
                (default_noise R (Kalman.R_measure_var k) m)) = ok SI ->
  nrows SI = m -> ncols SI = m ->
  Kalman.update linalg_inv (Some z) R (Some H) k = (ok tt, measured k z R H SI n m).
Proof.
  intros Hk Hz HR HH Hinv Hr Hc. unfold measured.
  now apply (@update_run linalg_inv k n m z R H SI).
Qed.

Lemma measured_conforms (k : Kalman.t) (n m : nat) (z : value)
      (R : option value) (H SI : matrix) :
  conforms k n m ->
  conforms (measured k z R H SI n m) n m.
Proof.
  intros Hk.
  destruct Hk as (Hds & Hdm & Hx & HP & HQs & HFs & HH & HR & HI & Hz
                  & Hxp & HPp & Hxo & HPo).
  pose proof Hx as (Hxr & Hxc & _).
  assert (Hx' : shaped (madd (Kalman.x_state k)
                          (mdot (gain H (Kalman.P_cov k) SI)
                             (residual z (mdot H (Kalman.x_state k))))) n 1)
    by (apply shaped_intro; shapes).
  assert (HP' : shaped (joseph (np.identity n) (gain H (Kalman.P_cov k) SI) H
                          (Kalman.P_cov k)
                          (default_noise R (Kalman.R_measure_var k) m)) n n)
    by (unfold joseph; apply shaped_intro; shapes).
  assert (Hz' : shaped (recorded z m) m 1) by apply shaped_build.
  unfold measured, conforms. cbn.
  repeat (split; [assumption|]). assumption.
Qed.

Lemma update_skipped_state (linalg_inv : matrix -> result matrix)
      (k : Kalman.t) (n m : nat) (R : option value) (H : option matrix) :
  conforms k n m ->
  Kalman.update linalg_inv None R H k = (ok tt, skipped k m).
Proof. intros Hk. unfold skipped. now apply update_skipped with (n := n). Qed.

Lemma skipped_conforms (k : Kalman.t) (n m : nat) :
  conforms k n m -> conforms (skipped k m) n m.
Proof.
  intros Hk.
  destruct Hk as (Hds & Hdm & Hx & HP & HQs & HFs & HH & HR & HI & Hz
                  & Hxp & HPp & Hxo & HPo).
  assert (Hz' : shaped (np.none_column (Z.of_nat m)) m 1).
  { unfold np.none_column. rewrite Nat2Z.id. apply shaped_build. }
  unfold skipped, conforms. cbn.
  repeat (split; [assumption|]). assumption.
Qed.

Lemma skipped_skipped (k : Kalman.t) (m : nat) :
  skipped (skipped k m) m = skipped k m.
Proof.
  destruct k. unfold skipped, invalidated.
  cbv beta iota delta -[zero np.none_column Z.of_nat]. reflexivity.
Qed.

(** ** Calls that raise *)

Lemma update_inverse_fails (linalg_inv : matrix -> result matrix)
      (k : Kalman.t) (n m : nat) (z : value) (R : option value)
      (H : matrix) (e : exn) :
  conforms k n m ->
  measurement_shaped z m ->
  noise_shaped R m ->
  shaped H m n ->
  linalg_inv (innovation_cov H (Kalman.P_cov k)
                (default_noise R (Kalman.R_measure_var k) m)) = err e ->
  Kalman.update linalg_inv (Some z) R (Some H) k =
  (err e,
   Kalman.set_S (innovation_cov H (Kalman.P_cov k)
                   (default_noise R (Kalman.R_measure_var k) m))
     (Kalman.set_y (residual z (mdot H (Kalman.x_state k))) (invalidated k))).
Proof.
  intros Hk Hz HR HH Hinv.
  destruct Hk as (Hds & Hdm & Hx & HP & HQs & HFs & HHs & HRs & HI & Hzm
                  & Hxp & HPp & Hxo & HPo).
  destruct (default_noise_shape R HR HRs) as [HRr HRc].
  destruct Hx as (Hxr & Hxc & Hxw), HP as (HPr & HPc & HPw).
  destruct HH as (HHr & HHc & _).
  unfold innovation_cov in *.
  unfold Kalman.update, bind, gets, lift, modify, ret.
  cbn.
  rewrite resolve_noise_conforming with (n := m) by exact Hdm.
  fold (invalidated k). cbn.
  rewrite (dot_aligned H (Kalman.x_state k)) by congruence. cbn.
  rewrite subtract_measurement with (m := m) by (try assumption; shapes). cbn.
  do 2 (rewrite dot_aligned by shapes; cbn).
  rewrite add_same_shape by shapes. cbn.
  rewrite Hinv. reflexivity.
Qed.

Lemma broadcast_refused (op : R -> R -> R) (a b : matrix) :
  broadcast_dim (nrows a) (nrows b) = None
  \/ broadcast_dim (ncols a) (ncols b) = None ->
  np.broadcast op a b
  = err (ValueError "operands could not be broadcast together").
Proof.
  intros [H|H]; unfold np.broadcast; rewrite H; [reflexivity|].
  now destruct (broadcast_dim (nrows a) (nrows b)).
Qed.

Ltac noise_refused HFr :=
  do 2 (rewrite dot_aligned by shapes; cbn);
  unfold np.add at 1; rewrite broadcast_refused; [reflexivity|];
  unfold np.scale, mscale, mdot, transpose, build; cbn [nrows ncols];
  now rewrite HFr.

Lemma predict_noise_misshaped (k : Kalman.t) (n m : nat)
      (u B F : option matrix) (q : matrix) :
  conforms k n m ->
  given_shaped F n n ->
  control_fits (or_stored B (Kalman.B_control k)) u n ->
  broadcast_dim n (nrows q) = None \/ broadcast_dim n (ncols q) = None ->
  Kalman.predict u B F (Some (Arr q)) k =
  (err (ValueError "operands could not be broadcast together"),
   Kalman.set_x_state
     (predicted_state (default F (Kalman.F_state_trans k))
                      (or_stored B (Kalman.B_control k)) u (Kalman.x_state k))
     k).
Proof.
  intros Hk HF HB Hq.
  destruct Hk as (Hds & Hdm & Hx & HP & HQs & HFs & HH & HR & HI & Hz
                  & Hxp & HPp & Hxo & HPo).
  destruct (default_shape F HF HFs) as [HFr HFc].
  destruct Hx as (Hxr & Hxc & Hxw), HP as (HPr & HPc & HPw).
  unfold Kalman.predict, bind, gets, lift, modify.
  cbn [Kalman.resolve_noise].
  change (match F with Some f => f | None => Kalman.F_state_trans k end)
    with (default F (Kalman.F_state_trans k)).
  change (match B with Some b => Some b | None => Kalman.B_control k end)
    with (or_stored B (Kalman.B_control k)).
  rewrite (dot_aligned (default F (Kalman.F_state_trans k)) (Kalman.x_state k))
    by congruence.
  unfold predicted_state.
  destruct (or_stored B (Kalman.B_control k)) as [b|], u as [u0|];
    cbn in HB; cbn.
  - destruct HB as (Hbr & Hbc & Huc).
    rewrite (dot_aligned b u0) by assumption. cbn.
    rewrite add_same_shape by shapes. cbn.
    noise_refused HFr.
  - noise_refused HFr.
  - noise_refused HFr.
  - noise_refused HFr.
Qed.

(** ** [Kalman.process] *)

Lemma process_without_measurement (linalg_inv : matrix -> result matrix)
      (k : Kalman.t) (n m : nat) (kw : Kalman.kwargs) :
  conforms k n m ->
  given_shaped (Kalman.kw_F kw) n n ->
  noise_shaped (Kalman.kw_Q kw) n ->
  control_fits (or_stored (Kalman.kw_B kw) (Kalman.B_control k))
               (Kalman.kw_u kw) n ->
  let k1 := predicted k (Kalman.kw_u kw) (Kalman.kw_B kw) (Kalman.kw_F kw)
                      (Kalman.kw_Q kw) n in
  Kalman.process linalg_inv None kw k = (ok (Kalman.x_state k1), skipped k1 m).
Proof.
  intros Hk HF HQ HB k1.
  unfold Kalman.process, bind.
  rewrite (@predict_predicted k n m _ _ _ _ Hk HF HQ HB). fold k1.
  rewrite (@update_skipped_state linalg_inv k1 n m _ _
             (@predicted_conforms k n m (Kalman.kw_u kw) (Kalman.kw_B kw) (Kalman.kw_F kw) (Kalman.kw_Q kw) Hk HF HB)).
  reflexivity.
Qed.

Lemma process_default_H (linalg_inv : matrix -> result matrix)
      (k : Kalman.t) (n m : nat) (z : value) (kw : Kalman.kwargs) :
  conforms k n m ->
  given_shaped (Kalman.kw_F kw) n n ->
  noise_shaped (Kalman.kw_Q kw) n ->
  control_fits (or_stored (Kalman.kw_B kw) (Kalman.B_control k))
               (Kalman.kw_u kw) n ->
  Kalman.kw_H kw = None ->
  Kalman.process linalg_inv (Some z) kw k =
  (err (AttributeError "numpy" "reshape_z"),
   invalidated (predicted k (Kalman.kw_u kw) (Kalman.kw_B kw) (Kalman.kw_F kw)
                          (Kalman.kw_Q kw) n)).
Proof.
  intros Hk HF HQ HB HH.
  unfold Kalman.process, bind.
  rewrite (@predict_predicted k n m _ _ _ _ Hk HF HQ HB), HH.
  rewrite update_default_H; [reflexivity|].
  destruct (@predicted_conforms k n m (Kalman.kw_u kw) (Kalman.kw_B kw) (Kalman.kw_F kw) (Kalman.kw_Q kw) Hk HF HB)
    as (_ & -> & _). lia.
Qed.

Lemma process_with_H (linalg_inv : matrix -> result matrix)
      (k : Kalman.t) (n m : nat) (z : value) (kw : Kalman.kwargs)
      (H SI : matrix) :
  conforms k n m ->
  given_shaped (Kalman.kw_F kw) n n ->
  noise_shaped (Kalman.kw_Q kw) n ->
  control_fits (or_stored (Kalman.kw_B kw) (Kalman.B_control k))
               (Kalman.kw_u kw) n ->
  Kalman.kw_H kw = Some H ->
  measurement_shaped z m ->
  noise_shaped (Kalman.kw_R kw) m ->
  shaped H m n ->
  let k1 := predicted k (Kalman.kw_u kw) (Kalman.kw_B kw) (Kalman.kw_F kw)
                      (Kalman.kw_Q kw) n in
  linalg_inv (innovation_cov H (Kalman.P_cov k1)
                (default_noise (Kalman.kw_R kw) (Kalman.R_measure_var k1) m))
  = ok SI ->
  nrows SI = m -> ncols SI = m ->
  let k2 := measured k1 z (Kalman.kw_R kw) H SI n m in
  Kalman.process linalg_inv (Some z) kw k = (ok (Kalman.x_state k2), k2).
Proof.
  intros Hk HF HQ HB HH Hz HR HHs k1 Hinv Hr Hc k2.
  unfold Kalman.process, bind.
  rewrite (@predict_predicted k n m _ _ _ _ Hk HF HQ HB), HH. fold k1.
  rewrite (@update_measured linalg_inv k1 n m z (Kalman.kw_R kw) H SI
             (@predicted_conforms k n m (Kalman.kw_u kw) (Kalman.kw_B kw) (Kalman.kw_F kw) (Kalman.kw_Q kw) Hk HF HB) Hz HR HHs Hinv Hr Hc).
  reflexivity.
Qed.

(** ** Symmetry of the covariance *)

Lemma rsum_plus (n : nat) (f g : nat -> R) :
  rsum n (fun k => f k + g k) = rsum n f + rsum n g.
Proof. induction n as [|n IH]; cbn; [lra|]. rewrite IH. lra. Qed.

Lemma rsum_mult_r (n : nat) (f : nat -> R) (c : R) :
  rsum n f * c = rsum n (fun k => f k * c).
Proof. induction n as [|n IH]; cbn; [lra|]. rewrite <- IH. lra. Qed.

Lemma rsum_swap (n m : nat) (f : nat -> nat -> R) :
  rsum n (fun k => rsum m (fun l => f k l))
  = rsum m (fun l => rsum n (fun k => f k l)).
Proof.
  induction n as [|n IH]; cbn.
  - now rewrite rsum_zero.
  - rewrite IH, <- rsum_plus. reflexivity.
Qed.

Lemma symmetric_entries (p : matrix) (n i j : nat) :
  nrows p = n -> ncols p = n -> symmetric p ->
  (i < n)%nat -> (j < n)%nat -> at_ p i j = at_ p j i.
Proof.
  intros Hr Hc Hs Hi Hj. unfold symmetric in Hs. rewrite <- Hs at 1.
  unfold transpose. rewrite Hr, Hc. now rewrite at_build.
Qed.

Lemma symmetric_build (n : nat) (f : nat -> nat -> R) :
  (forall i j, (i < n)%nat -> (j < n)%nat -> f i j = f j i) ->
  symmetric (build n n f).
Proof.
  intros H. unfold symmetric, transpose.
  change (nrows (build n n f)) with n. change (ncols (build n n f)) with n.
  apply build_ext. intros i j Hi Hj. rewrite at_build by assumption.
  now apply H.
Qed.

(** [A P A^T] is symmetric when [P] is, whatever [A] is. *)
Lemma congruence_symmetric (a p : matrix) (n : nat) :
  ncols a = n -> nrows p = n -> ncols p = n -> symmetric p ->
  symmetric (mdot (mdot a p) (transpose a)).
Proof.
  intros Ha Hpr Hpc Hs.
  unfold mdot at 1.
  change (nrows (mdot a p)) with (nrows a).
  change (ncols (transpose a)) with (nrows a).
  change (ncols (mdot a p)) with (ncols p). rewrite Hpc.
  apply symmetric_build. intros i j Hi Hj.
  assert (E : forall i j, (i < nrows a)%nat -> (j < nrows a)%nat ->
              rsum n (fun k => at_ (mdot a p) i k * at_ (transpose a) k j)
              = rsum n (fun k => rsum n (fun l =>
                                   at_ a i l * at_ p l k * at_ a j k))).
  { intros i' j' Hi' Hj'. apply rsum_ext. intros k Hk.
    unfold mdot, transpose. rewrite Ha, !at_build by (try assumption; lia).
    now rewrite rsum_mult_r. }
  rewrite !E by assumption. rewrite rsum_swap.
  apply rsum_ext. intros k Hk. apply rsum_ext. intros l Hl.
  rewrite (@symmetric_entries p n k l) by assumption. ring.
Qed.

Lemma madd_symmetric (a b : matrix) (n : nat) :
  nrows a = n -> ncols a = n -> nrows b = n -> ncols b = n ->
  symmetric a -> symmetric b -> symmetric (madd a b).
Proof.
  intros Har Hac Hbr Hbc Ha Hb. unfold madd, elementwise. rewrite Har, Hac.
  apply symmetric_build. intros i j Hi Hj.
  rewrite Hbr, Hbc, !bidx_lt by assumption.
  rewrite (@symmetric_entries a n i j), (@symmetric_entries b n i j)
    by assumption.
  reflexivity.
Qed.

Lemma mscale_symmetric (s : R) (a : matrix) (n : nat) :
  nrows a = n -> ncols a = n -> symmetric a -> symmetric (mscale s a).
Proof.
  intros Hr Hc Ha. unfold mscale. rewrite Hr, Hc.
  apply symmetric_build. intros i j Hi Hj.
  now rewrite (@symmetric_entries a n i j).
Qed.

Lemma predicted_cov_symmetric (s : R) (f p q : matrix) (n : nat) :
  nrows f = n -> ncols f = n -> nrows p = n -> ncols p = n ->
  nrows q = n -> ncols q = n ->
  symmetric p -> symmetric q -> symmetric (predicted_cov s f p q).
Proof.
  intros Hfr Hfc Hpr Hpc Hqr Hqc Hp Hq. unfold predicted_cov.
  apply madd_symmetric with (n := n); try assumption; try shapes.
  apply mscale_symmetric with (n := n); try shapes.
  now apply congruence_symmetric with (n := n).
Qed.

Lemma joseph_symmetric (k h p r : matrix) (n m : nat) :
  nrows k = n -> ncols k = m -> nrows h = m -> ncols h = n ->
  nrows p = n -> ncols p = n -> nrows r = m -> ncols r = m ->
  symmetric p -> symmetric r ->
  symmetric (joseph (np.identity n) k h p r).
Proof.
  intros Hkr Hkc Hhr Hhc Hpr Hpc Hrr Hrc Hp Hr. unfold joseph.
  apply madd_symmetric with (n := n); try shapes.
  - apply congruence_symmetric with (n := n); try assumption. shapes.
  - now apply congruence_symmetric with (n := m).
Qed.

Lemma tracker_conforms : conforms tracker 2 1.
Proof.
  unfold conforms, tracker. cbn.
  repeat split; try reflexivity; apply wf_build.
Qed.

Lemma alpha_sq_conforms (k : Kalman.t) (n m : nat) (a : R) :
  conforms k n m -> conforms (Kalman.set_alpha_sq a k) n m.
Proof. intros Hk. exact Hk. Qed.

(** X1.  [predict] keeps the shapes: on a filter whose arrays have the
    shapes of its dimensions, a [predict] with conforming arguments returns
    normally and leaves a filter whose arrays have these shapes again. *)
Theorem Kalman_predict_keeps_shapes (k : Kalman.t) (n m : nat)
        (u B F : option matrix) (Q : option value) :
  conforms k n m ->
  given_shaped F n n ->
  noise_shaped Q n ->
  control_fits (or_stored B (Kalman.B_control k)) u n ->
  fst (Kalman.predict u B F Q k) = ok tt
  /\ conforms (snd (Kalman.predict u B F Q k)) n m.
Proof.
  intros Hk HF HQ HB. rewrite (@predict_predicted k n m u B F Q Hk HF HQ HB).
  split; [reflexivity|]. now apply predicted_conforms.
Qed.

Lemma Kalman_predict_keeps_shapes_witness :
  conforms (snd (Kalman.predict None None None (Some (Num 2)) tracker)) 2 1.
Proof.
  apply (@Kalman_predict_keeps_shapes tracker 2 1 None None None
           (Some (Num 2)) tracker_conforms I I I).
Defined.

Lemma measured_fresh (k : Kalman.t) (n m : nat) (z : value)
      (R : option value) (H SI : matrix) :
  conforms k n m ->
  noise_shaped R m ->
  shaped H m n ->
  nrows SI = m -> ncols SI = m ->
  shaped (Kalman.K (measured k z R H SI n m)) n m
  /\ shaped (Kalman.y (measured k z R H SI n m)) m 1
  /\ shaped (Kalman.S (measured k z R H SI n m)) m m
  /\ Kalman.SI (measured k z R H SI n m) = SI.
Proof.
  intros Hk HR HH Hr Hc.
  destruct Hk as (Hds & Hdm & Hx & HP & HQs & HFs & _ & HRs & _).
  pose proof Hx as (Hxr & Hxc & _).
  pose proof HP as (HPr & HPc & _).
  pose proof HH as (HHr & HHc & _).
  destruct (default_noise_shape R HR HRs) as [HRr HRc].
  assert (HK : shaped (gain H (Kalman.P_cov k) SI) n m)
    by (unfold gain; apply shaped_intro; shapes).
  assert (Hy : shaped (residual z (mdot H (Kalman.x_state k))) m 1)
    by (unfold residual; apply shaped_intro; shapes).
  assert (HS : shaped (innovation_cov H (Kalman.P_cov k)
                         (default_noise R (Kalman.R_measure_var k) m)) m m)
    by (unfold innovation_cov; apply shaped_intro; shapes).
  unfold measured. cbn.
  repeat (split; [assumption|]). reflexivity.
Qed.

(** X2.  [update] keeps the shapes: with a measurement, a measurement
    matrix handed to the call and an [m x m] inverse delivered by
    [np.linalg.inv], [update] returns normally; the state, the
    covariances, the model matrices, the recorded measurement and the
    saved priors and posteriors have the shapes of the filter's dimensions
    again, and the arrays [update] assigns afresh have theirs: the gain
    [K] is [n x m], the residual [y] is [m x 1], the innovation covariance
    [S] is [m x m], and [SI] is the delivered inverse. *)
Theorem Kalman_update_keeps_shapes (linalg_inv : matrix -> result matrix)
        (k : Kalman.t) (n m : nat) (z : value) (R : option value)
        (H SI : matrix) :
  conforms k n m ->
  measurement_shaped z m ->
  noise_shaped R m ->
  shaped H m n ->
  linalg_inv (innovation_cov H (Kalman.P_cov k)
                (default_noise R (Kalman.R_measure_var k) m)) = ok SI ->
  nrows SI = m -> ncols SI = m ->
  let k' := snd (Kalman.update linalg_inv (Some z) R (Some H) k) in
  fst (Kalman.update linalg_inv (Some z) R (Some H) k) = ok tt
  /\ conforms k' n m
  /\ shaped (Kalman.K k') n m
  /\ shaped (Kalman.y k') m 1
  /\ shaped (Kalman.S k') m m
  /\ Kalman.SI k' = SI.
Proof.
  intros Hk Hz HR HH Hinv Hr Hc. cbv zeta.
  rewrite (@update_measured linalg_inv k n m z R H SI Hk Hz HR HH Hinv Hr Hc).
  split; [reflexivity|]. split; [now apply measured_conforms|].
  cbn [snd]. apply measured_fresh; assumption.
Qed.

(** X3.  A missed observation repeats without effect: after
    [update(None)] the shapes are kept, and a second [update(None)],
    whatever its other arguments, returns normally and changes nothing. *)
Theorem Kalman_missed_observation_repeats
        (linalg_inv : matrix -> result matrix)
        (k : Kalman.t) (n m : nat) (R R' : option value)
        (H H' : option matrix) :
  conforms k n m ->
  let k1 := snd (Kalman.update linalg_inv None R H k) in
  conforms k1 n m
  /\ Kalman.update linalg_inv None R' H' k1 = (ok tt, k1).
Proof.
  intros Hk k1. subst k1.
  rewrite (@update_skipped_state linalg_inv k n m R H Hk). cbn [snd].
  split; [now apply skipped_conforms|].
  rewrite (@update_skipped_state linalg_inv (skipped k m) n m R' H'
             (skipped_conforms Hk)).
  now rewrite skipped_skipped.
Qed.

(** X4.  An error of the matrix inverse (a singular innovation
    covariance) leaves [update] as it is: the call raises that error,
    [x_state], [P_cov], [K], [SI], [z_measure] and the posteriors are as
    before, while [y] and [S] already hold the residual and the innovation
    covariance of this call. *)
Theorem Kalman_update_inverse_error_propagates
        (linalg_inv : matrix -> result matrix)
        (k : Kalman.t) (n m : nat) (z : value) (R : option value)
        (H : matrix) (e : exn) :
  conforms k n m ->
  measurement_shaped z m ->
  noise_shaped R m ->
  shaped H m n ->
  linalg_inv (innovation_cov H (Kalman.P_cov k)
                (default_noise R (Kalman.R_measure_var k) m)) = err e ->
  let k' := snd (Kalman.update linalg_inv (Some z) R (Some H) k) in
  fst (Kalman.update linalg_inv (Some z) R (Some H) k) = err e
  /\ Kalman.x_state k' = Kalman.x_state k
  /\ Kalman.P_cov k' = Kalman.P_cov k
  /\ Kalman.K k' = Kalman.K k
  /\ Kalman.SI k' = Kalman.SI k
  /\ Kalman.z_measure k' = Kalman.z_measure k
  /\ Kalman.x_post k' = Kalman.x_post k
  /\ Kalman.P_post k' = Kalman.P_post k
  /\ Kalman.y k' = residual z (mdot H (Kalman.x_state k))
  /\ Kalman.S k' = innovation_cov H (Kalman.P_cov k)
                     (default_noise R (Kalman.R_measure_var k) m).
Proof.
  intros Hk Hz HR HH Hinv k'. subst k'.
  rewrite (@update_inverse_fails linalg_inv k n m z R H e Hk Hz HR HH Hinv).
  cbn. repeat split; reflexivity.
Qed.

(** X5.  A transition matrix whose column count differs from the height
    of [x_state] makes [predict] raise [ValueError] at its first product,
    before any attribute is assigned: the filter is unchanged. *)
Theorem Kalman_predict_misaligned_transition (k : Kalman.t)
        (u B F : option matrix) (Q : option value) :
  (0 <= Kalman.dim_state k)%Z ->
  ncols (default F (Kalman.F_state_trans k)) <> nrows (Kalman.x_state k) ->
  Kalman.predict u B F Q k = (err (ValueError "shapes not aligned"), k).
Proof.
  intros Hn HF.
  unfold Kalman.predict, bind, gets, lift, modify.
  rewrite resolve_noise_conforming
    with (n := Z.to_nat (Kalman.dim_state k)) by now rewrite Z2Nat.id.
  change (match F with Some f => f | None => Kalman.F_state_trans k end)
    with (default F (Kalman.F_state_trans k)).
  unfold np.dot at 1.
  destruct (Nat.eqb_spec (ncols (default F (Kalman.F_state_trans k)))
                         (nrows (Kalman.x_state k))); [contradiction|].
  reflexivity.
Qed.

(** X6.  [predict] is not atomic: a process-noise array whose shape
    cannot be broadcast against [n x n] makes the call raise when the
    covariance is formed, after [x_state] has been overwritten with the
    prediction; [P_cov] and both priors still hold their old values. *)
Theorem Kalman_predict_not_atomic (k : Kalman.t) (n m : nat)
        (u B F : option matrix) (q : matrix) :
  conforms k n m ->
  given_shaped F n n ->
  control_fits (or_stored B (Kalman.B_control k)) u n ->
  broadcast_dim n (nrows q) = None \/ broadcast_dim n (ncols q) = None ->
  let k' := snd (Kalman.predict u B F (Some (Arr q)) k) in
  (exists e, fst (Kalman.predict u B F (Some (Arr q)) k) = err e)
  /\ Kalman.x_state k'
     = predicted_state (default F (Kalman.F_state_trans k))
                       (or_stored B (Kalman.B_control k)) u (Kalman.x_state k)
  /\ Kalman.P_cov k' = Kalman.P_cov k
  /\ Kalman.x_prior k' = Kalman.x_prior k
  /\ Kalman.P_prior k' = Kalman.P_prior k.
Proof.
  intros Hk HF HB Hq k'. subst k'.
  rewrite (@predict_noise_misshaped k n m u B F q Hk HF HB Hq).
  cbn. split; [eexists; reflexivity|]. repeat split; reflexivity.
Qed.

Lemma Kalman_predict_not_atomic_witness :
  Kalman.x_state (snd (Kalman.predict None None None (Some (Arr (zero 3 3)))
                                      tracker))
  = mdot (Kalman.F_state_trans tracker) (Kalman.x_state tracker).
Proof.
  apply (@Kalman_predict_not_atomic tracker 2 1 None None None (zero 3 3)
           tracker_conforms I I (or_introl eq_refl)).
Defined.

Lemma Kalman_update_keeps_shapes_witness :
  conforms (snd (Kalman.update exact_inv (Some (Num 0)) None
                               (Some (np.identity 1)) noiseless)) 1 1
  /\ shaped (Kalman.K (snd (Kalman.update exact_inv (Some (Num 0)) None
                                          (Some (np.identity 1)) noiseless))) 1 1.
Proof.
  destruct (@Kalman_update_keeps_shapes exact_inv noiseless 1 1 (Num 0) None
              (np.identity 1) (adjugate_inverse (np.identity 1))
              noiseless_conforms I I (identity_shaped 1)
              noiseless_inverse eq_refl eq_refl) as (_ & Hc & HK & _).
  split; [exact Hc|exact HK].
Defined.

Lemma Kalman_missed_observation_repeats_witness :
  Kalman.update exact_inv None None None
    (snd (Kalman.update exact_inv None None None noiseless))
  = (ok tt, snd (Kalman.update exact_inv None None None noiseless)).
Proof.
  apply (@Kalman_missed_observation_repeats exact_inv noiseless 1 1
           None None None None noiseless_conforms).
Defined.

Lemma blind_innovation_cov :
  innovation_cov (zero 1 1) (Kalman.P_cov noiseless)
                 (default_noise None (Kalman.R_measure_var noiseless) 1)
  = zero 1 1.
Proof.
  unfold innovation_cov. rewrite mdot_zero_l.
  apply (madd_zero_r (zero_shaped 1 1)).
Qed.

Lemma exact_inv_zero : exact_inv (zero 1 1) = err (LinAlgError "Singular matrix").
Proof.
  unfold exact_inv. change (nrows (zero 1 1)) with 1%nat.
  change (ncols (zero 1 1)) with 1%nat. cbn [Nat.eqb].
  destruct (Req_EM_T (det 1 (at_ (zero 1 1))) 0) as [_|Hne]; [reflexivity|].
  exfalso. apply Hne. cbn [det rsum]. unfold zero.
  rewrite at_build by lia. lra.
Qed.

Lemma blind_inverse :
  exact_inv (innovation_cov (zero 1 1) (Kalman.P_cov noiseless)
               (default_noise None (Kalman.R_measure_var noiseless) 1))
  = err (LinAlgError "Singular matrix").
Proof. rewrite blind_innovation_cov. apply exact_inv_zero. Qed.

Lemma Kalman_update_inverse_error_propagates_witness :
  fst (Kalman.update exact_inv (Some (Num 0)) None (Some (zero 1 1)) noiseless)
  = err (LinAlgError "Singular matrix").
Proof.
  apply (@Kalman_update_inverse_error_propagates exact_inv noiseless 1 1
           (Num 0) None (zero 1 1) (LinAlgError "Singular matrix")
           noiseless_conforms I I (zero_shaped 1 1) blind_inverse).
Defined.

Lemma Kalman_predict_misaligned_transition_witness :
  Kalman.predict None None (Some (zero 1 2)) None noiseless
  = (err (ValueError "shapes not aligned"), noiseless).
Proof.
  apply (@Kalman_predict_misaligned_transition noiseless None None
           (Some (zero 1 2)) None).
  - cbn. lia.
  - cbn. discriminate.
Defined.

(** X7.  [process(None)]: the cycle with a missed observation returns the
    predicted state; afterwards prior and posterior coincide with the
    predicted state and covariance, the residual is zero and [z_measure]
    is the column of [None]s. *)
Theorem Kalman_process_missed_observation
        (linalg_inv : matrix -> result matrix)
        (k : Kalman.t) (n m : nat) (kw : Kalman.kwargs) :
  conforms k n m ->
  given_shaped (Kalman.kw_F kw) n n ->
  noise_shaped (Kalman.kw_Q kw) n ->
  control_fits (or_stored (Kalman.kw_B kw) (Kalman.B_control k))
               (Kalman.kw_u kw) n ->
  let F' := default (Kalman.kw_F kw) (Kalman.F_state_trans k) in
  let B' := or_stored (Kalman.kw_B kw) (Kalman.B_control k) in
  let Q' := default_noise (Kalman.kw_Q kw) (Kalman.Q_proc_var k) n in
  let k' := snd (Kalman.process linalg_inv None kw k) in
  fst (Kalman.process linalg_inv None kw k) = ok (Kalman.x_state k')
  /\ Kalman.x_state k'
     = predicted_state F' B' (Kalman.kw_u kw) (Kalman.x_state k)
  /\ Kalman.P_cov k'
     = predicted_cov (Kalman._alpha_sq k) F' (Kalman.P_cov k) Q'
  /\ Kalman.x_prior k' = Kalman.x_state k'
  /\ Kalman.x_post k' = Kalman.x_state k'
  /\ Kalman.P_prior k' = Kalman.P_cov k'
  /\ Kalman.P_post k' = Kalman.P_cov k'
  /\ Kalman.y k' = zero m 1
  /\ Kalman.z_measure k' = np.none_column (Z.of_nat m).
Proof.
  intros Hk HF HQ HB F' B' Q' k'. subst k'.
  rewrite (@process_without_measurement linalg_inv k n m kw Hk HF HQ HB).
  cbn. repeat split; reflexivity.
Qed.

Lemma Kalman_process_missed_observation_witness :
  Kalman.x_post (snd (Kalman.process exact_inv None no_kwargs tracker))
  = Kalman.x_state (snd (Kalman.process exact_inv None no_kwargs tracker)).
Proof.
  apply (@Kalman_process_missed_observation exact_inv tracker 2 1 no_kwargs
           tracker_conforms I I I).
Defined.

(** X8.  [process(z)] without [H] among the keyword arguments raises the
    [AttributeError] of [update], but only after [predict] has run: the
    filter is left advanced by one prediction (state, covariance and
    priors), with the posteriors of the previous cycle. *)
Theorem Kalman_process_default_H_not_atomic
        (linalg_inv : matrix -> result matrix)
        (k : Kalman.t) (n m : nat) (z : value) (kw : Kalman.kwargs) :
  conforms k n m ->
  given_shaped (Kalman.kw_F kw) n n ->
  noise_shaped (Kalman.kw_Q kw) n ->
  control_fits (or_stored (Kalman.kw_B kw) (Kalman.B_control k))
               (Kalman.kw_u kw) n ->
  Kalman.kw_H kw = None ->
  let F' := default (Kalman.kw_F kw) (Kalman.F_state_trans k) in
  let B' := or_stored (Kalman.kw_B kw) (Kalman.B_control k) in
  let Q' := default_noise (Kalman.kw_Q kw) (Kalman.Q_proc_var k) n in
  let k' := snd (Kalman.process linalg_inv (Some z) kw k) in
  fst (Kalman.process linalg_inv (Some z) kw k)
  = err (AttributeError "numpy" "reshape_z")
  /\ Kalman.x_state k'
     = predicted_state F' B' (Kalman.kw_u kw) (Kalman.x_state k)
  /\ Kalman.P_cov k'
     = predicted_cov (Kalman._alpha_sq k) F' (Kalman.P_cov k) Q'
  /\ Kalman.x_prior k' = Kalman.x_state k'
  /\ Kalman.P_prior k' = Kalman.P_cov k'
  /\ Kalman.x_post k' = Kalman.x_post k
  /\ Kalman.P_post k' = Kalman.P_post k
  /\ conforms k' n m.
Proof.
  intros Hk HF HQ HB HH F' B' Q' k'. subst k'.
  rewrite (@process_default_H linalg_inv k n m z kw Hk HF HQ HB HH).
  cbn. repeat (split; [reflexivity|]).
  exact (@predicted_conforms k n m _ _ _ (Kalman.kw_Q kw) Hk HF HB).
Qed.

Lemma Kalman_process_default_H_not_atomic_witness :
  Kalman.x_state (snd (Kalman.process exact_inv (Some (Num 1)) no_kwargs tracker))
  = mdot (Kalman.F_state_trans tracker) (Kalman.x_state tracker).
Proof.
  apply (@Kalman_process_default_H_not_atomic exact_inv tracker 2 1 (Num 1)
           no_kwargs tracker_conforms I I I eq_refl).
Defined.

(** X9.  [process(z, H=H)] composes the two steps: it returns the new
    [x_state], which is [x1 + K (z - H x1)] for the predicted state [x1],
    the predicted covariance [P1] and the gain [K = P1 H^T SI]; the priors
    hold [x1] and [P1], the posteriors the new state and the Joseph-form
    covariance, and the shapes are kept. *)
Theorem Kalman_process_with_measurement_matrix
        (linalg_inv : matrix -> result matrix)
        (k : Kalman.t) (n m : nat) (z : value) (kw : Kalman.kwargs)
        (H SI : matrix) :
  conforms k n m ->
  given_shaped (Kalman.kw_F kw) n n ->
  noise_shaped (Kalman.kw_Q kw) n ->
  control_fits (or_stored (Kalman.kw_B kw) (Kalman.B_control k))
               (Kalman.kw_u kw) n ->
  Kalman.kw_H kw = Some H ->
  measurement_shaped z m ->
  noise_shaped (Kalman.kw_R kw) m ->
  shaped H m n ->
  let F' := default (Kalman.kw_F kw) (Kalman.F_state_trans k) in
  let B' := or_stored (Kalman.kw_B kw) (Kalman.B_control k) in
  let Q' := default_noise (Kalman.kw_Q kw) (Kalman.Q_proc_var k) n in
  let R' := default_noise (Kalman.kw_R kw) (Kalman.R_measure_var k) m in
  let x1 := predicted_state F' B' (Kalman.kw_u kw) (Kalman.x_state k) in
  let P1 := predicted_cov (Kalman._alpha_sq k) F' (Kalman.P_cov k) Q' in
  linalg_inv (innovation_cov H P1 R') = ok SI ->
  nrows SI = m -> ncols SI = m ->
  let k' := snd (Kalman.process linalg_inv (Some z) kw k) in
  fst (Kalman.process linalg_inv (Some z) kw k) = ok (Kalman.x_state k')
  /\ Kalman.x_prior k' = x1
  /\ Kalman.P_prior k' = P1
  /\ Kalman.x_state k'
     = madd x1 (mdot (gain H P1 SI) (residual z (mdot H x1)))
  /\ Kalman.P_cov k' = joseph (np.identity n) (gain H P1 SI) H P1 R'
  /\ Kalman.x_post k' = Kalman.x_state k'
  /\ Kalman.P_post k' = Kalman.P_cov k'
  /\ conforms k' n m.
Proof.
  intros Hk HF HQ HB HH Hz HR HHs F' B' Q' R' x1 P1 Hinv Hr Hc k'. subst k'.
  rewrite (@process_with_H linalg_inv k n m z kw H SI Hk HF HQ HB HH Hz HR HHs
             Hinv Hr Hc).
  cbn. repeat (split; [reflexivity|]).
  apply measured_conforms.
  exact (@predicted_conforms k n m _ _ _ (Kalman.kw_Q kw) Hk HF HB).
Qed.

Lemma noiseless_cycle_innovation :
  innovation_cov (np.identity 1)
    (predicted_cov (Kalman._alpha_sq noiseless)
       (default None (Kalman.F_state_trans noiseless))
       (Kalman.P_cov noiseless)
       (default_noise None (Kalman.Q_proc_var noiseless) 1))
    (default_noise None (Kalman.R_measure_var noiseless) 1)
  = mscale 1 (np.identity 1).
Proof.
  change (default None (Kalman.F_state_trans noiseless)) with (np.identity 1).
  change (default_noise None (Kalman.Q_proc_var noiseless) 1) with (zero 1 1).
  change (default_noise None (Kalman.R_measure_var noiseless) 1) with (zero 1 1).
  change (Kalman.P_cov noiseless) with (np.identity 1).
  change (Kalman._alpha_sq noiseless) with 1.
  rewrite (predicted_cov_identity 1 (identity_shaped 1)).
  apply innovation_cov_identity. apply shaped_build.
Qed.

Lemma noiseless_cycle_inverse :
  exact_inv
    (innovation_cov (np.identity 1)
       (predicted_cov (Kalman._alpha_sq noiseless)
          (default None (Kalman.F_state_trans noiseless))
          (Kalman.P_cov noiseless)
          (default_noise None (Kalman.Q_proc_var noiseless) 1))
       (default_noise None (Kalman.R_measure_var noiseless) 1))
  = ok (adjugate_inverse (mscale 1 (np.identity 1))).
Proof.
  rewrite noiseless_cycle_innovation.
  destruct noiseless_innovation as (Hr & Hc & Ha).
  now apply exact_inv_unit.
Qed.

Lemma Kalman_process_with_measurement_matrix_witness :
  Kalman.x_post (snd (Kalman.process exact_inv (Some (Num 0)) H_only noiseless))
  = Kalman.x_state (snd (Kalman.process exact_inv (Some (Num 0)) H_only noiseless)).
Proof.
  apply (@Kalman_process_with_measurement_matrix exact_inv noiseless 1 1
           (Num 0) H_only (np.identity 1)
           (adjugate_inverse (mscale 1 (np.identity 1)))
           noiseless_conforms I I I eq_refl I I (identity_shaped 1)
           noiseless_cycle_inverse eq_refl eq_refl).
Defined.

(** X10.  [predict] keeps [P_cov] symmetric: if [P_cov] and the resolved
    process noise are symmetric, so is [alpha_sq (F P F^T) + Q], for any
    transition matrix. *)
Theorem Kalman_predict_keeps_symmetry (k : Kalman.t) (n m : nat)
        (u B F : option matrix) (Q : option value) :
  conforms k n m ->
  given_shaped F n n ->
  noise_shaped Q n ->
  control_fits (or_stored B (Kalman.B_control k)) u n ->
  symmetric (Kalman.P_cov k) ->
  symmetric (default_noise Q (Kalman.Q_proc_var k) n) ->
  symmetric (Kalman.P_cov (snd (Kalman.predict u B F Q k))).
Proof.
  intros Hk HF HQ HB HP HQs.
  rewrite (@predict_predicted k n m u B F Q Hk HF HQ HB).
  destruct Hk as (Hds & Hdm & Hx & (HPr & HPc & _) & HQv & HFs & _).
  destruct (default_shape F HF HFs) as [HFr HFc].
  destruct (default_noise_shape Q HQ HQv) as [HQr HQc].
  unfold predicted. cbn.
  now apply predicted_cov_symmetric with (n := n).
Qed.

(** X11.  The Joseph form keeps [P_cov] symmetric: if [P_cov] and the
    resolved measurement noise are symmetric, then so is [P_cov] after
    [update], whatever array the inverse delivers as [SI]. *)
Theorem Kalman_update_keeps_symmetry (linalg_inv : matrix -> result matrix)
        (k : Kalman.t) (n m : nat) (z : value) (R : option value)
        (H SI : matrix) :
  conforms k n m ->
  measurement_shaped z m ->
  noise_shaped R m ->
  shaped H m n ->
  linalg_inv (innovation_cov H (Kalman.P_cov k)
                (default_noise R (Kalman.R_measure_var k) m)) = ok SI ->
  nrows SI = m -> ncols SI = m ->
  symmetric (Kalman.P_cov k) ->
  symmetric (default_noise R (Kalman.R_measure_var k) m) ->
  symmetric (Kalman.P_cov (snd (Kalman.update linalg_inv (Some z) R (Some H) k))).
Proof.
  intros Hk Hz HR HH Hinv Hr Hc HP HRs.
  rewrite (@update_measured linalg_inv k n m z R H SI Hk Hz HR HH Hinv Hr Hc).
  destruct Hk as (Hds & Hdm & Hx & (HPr & HPc & _) & _ & _ & _ & HRv & _).
  destruct (default_noise_shape R HR HRv) as [HRr HRc].
  destruct HH as (HHr & HHc & _).
  unfold measured. cbn.
  apply joseph_symmetric with (m := m); try assumption; shapes.
Qed.

Lemma Kalman_predict_keeps_symmetry_witness :
  symmetric (Kalman.P_cov (snd (Kalman.predict None None None None tracker))).
Proof.
  apply (@Kalman_predict_keeps_symmetry tracker 2 1 None None None None
           tracker_conforms I I I (transpose_identity 2) (transpose_identity 2)).
Defined.

Lemma Kalman_update_keeps_symmetry_witness :
  symmetric (Kalman.P_cov (snd (Kalman.update exact_inv (Some (Num 0)) None
                                              (Some (np.identity 1)) noiseless))).
Proof.
  apply (@Kalman_update_keeps_symmetry exact_inv noiseless 1 1 (Num 0) None
           (np.identity 1) (adjugate_inverse (np.identity 1))
           noiseless_conforms I I (identity_shaped 1)
           noiseless_inverse eq_refl eq_refl
           (transpose_identity 1) (transpose_zero 1 1)).
Defined.

Lemma at_madd (a b : matrix) (i j : nat) :
  (i < nrows a)%nat -> (j < ncols a)%nat ->
  nrows b = nrows a -> ncols b = ncols a ->
  at_ (madd a b) i j = at_ a i j + at_ b i j.
Proof.
  intros Hi Hj Hr Hc. unfold madd, elementwise.
  rewrite at_build by assumption. rewrite Hr, Hc. now rewrite !bidx_lt.
Qed.

(** X12.  Fading memory: for a float [v >= 1] whose square stays within
    the range of floats, [alpha = v] is accepted and the covariance
    predicted afterwards has the entries [v^2 (F P F^T)_ij + Q_ij]; against
    [alpha = 1.] each entry grows by [(v^2 - 1) (F P F^T)_ij]. *)
Theorem Kalman_alpha_inflates_prediction (k : Kalman.t) (n m : nat)
        (u B F : option matrix) (Q : option value) (v : R) (i j : nat) :
  conforms k n m ->
  given_shaped F n n ->
  noise_shaped Q n ->
  control_fits (or_stored B (Kalman.B_control k)) u n ->
  1 <= v -> v ^ 2 < float_overflow -> (i < n)%nat -> (j < n)%nat ->
  let F' := default F (Kalman.F_state_trans k) in
  let Q' := default_noise Q (Kalman.Q_proc_var k) n in
  let G := mdot (mdot F' (Kalman.P_cov k)) (transpose F') in
  let with_alpha a :=
    Kalman.P_cov (snd (Kalman.predict u B F Q
                         (snd (Kalman.set_alpha (PyFloat a) k)))) in
  fst (Kalman.set_alpha (PyFloat v) k) = ok tt
  /\ at_ (with_alpha v) i j = v ^ 2 * at_ G i j + at_ Q' i j
  /\ at_ (with_alpha v) i j - at_ (with_alpha 1) i j = (v ^ 2 - 1) * at_ G i j.
Proof.
  intros Hk HF HQ HB Hv Hr Hi Hj F' Q' G with_alpha.
  assert (E : forall a, 1 <= a -> a ^ 2 < float_overflow ->
                at_ (with_alpha a) i j = a ^ 2 * at_ G i j + at_ Q' i j).
  { intros a Ha Har. subst with_alpha. cbv beta.
    rewrite set_alpha_float by assumption. cbn [snd].
    rewrite (@predict_predicted (Kalman.set_alpha_sq (a ^ 2) k) n m u B F Q
               Hk HF HQ HB).
    destruct Hk as (Hds & Hdm & Hx & (HPr & HPc & _) & HQv & HFs & _).
    destruct (default_shape F HF HFs) as [HFr HFc]. fold F' in HFr, HFc.
    destruct (default_noise_shape Q HQ HQv) as [HQr HQc]. fold Q' in HQr, HQc.
    assert (HGr : nrows G = n) by (subst G; shapes).
    assert (HGc : ncols G = n) by (subst G; shapes).
    change (Kalman.P_cov (snd (ok tt, predicted (Kalman.set_alpha_sq (a ^ 2) k)
                                         u B F Q n)))
      with (madd (mscale (a ^ 2) G) Q').
    rewrite at_madd
      by (change (nrows (mscale (a ^ 2) G)) with (nrows G);
          change (ncols (mscale (a ^ 2) G)) with (ncols G);
          rewrite ?HGr, ?HGc, ?HQr, ?HQc; first [assumption|reflexivity]).
    now rewrite at_mscale by (rewrite ?HGr, ?HGc; assumption). }
  split; [now rewrite set_alpha_float|].
  rewrite (E v Hv Hr), (E 1) by (pose proof float_overflow_large; lra).
  split; [reflexivity|]. ring.
Qed.

Lemma Kalman_alpha_inflates_prediction_witness :
  at_ (Kalman.P_cov (snd (Kalman.predict None None None None
                            (snd (Kalman.set_alpha (PyFloat (3 / 2)) tracker))))) 0 0
  - at_ (Kalman.P_cov (snd (Kalman.predict None None None None
                              (snd (Kalman.set_alpha (PyFloat 1) tracker))))) 0 0
  = ((3 / 2) ^ 2 - 1)
    * at_ (mdot (mdot (Kalman.F_state_trans tracker) (Kalman.P_cov tracker))
                (transpose (Kalman.F_state_trans tracker))) 0 0.
Proof.
  apply (@Kalman_alpha_inflates_prediction tracker 2 1 None None None None
           (3 / 2) 0 0 tracker_conforms I I I);
    [lra|pose proof float_overflow_large; lra|lia|lia].
Defined.

(** [measurement_of_state(x)] shares the defect of [residual_of]: it
    raises [NameError] for every filter and every [x]. *)
Lemma measurement_of_state_NameError (k : Kalman.t) (x : matrix) :
  Kalman.measurement_of_state x k = (err (NameError "dot"), k).
Proof. reflexivity. Qed.

Lemma mscale_one (a : matrix) (r c : nat) : shaped a r c -> mscale 1 a = a.
Proof.
  intros Ha. pose proof Ha as (Hr & Hc & _). unfold mscale. rewrite Hr, Hc.
  apply matrix_ext; [assumption|]. intros i j Hi Hj. lra.
Qed.

(** X17.  An unmoving model: with [F = I], [Q = 0] and [alpha_sq = 1],
    [predict()] returns normally and leaves [x_state] and [P_cov] as they
    were; the priors receive these values. *)
Theorem Kalman_predict_stationary (k : Kalman.t) (n m : nat) :
  conforms k n m ->
  Kalman.F_state_trans k = np.identity n ->
  Kalman.Q_proc_var k = zero n n ->
  Kalman._alpha_sq k = 1 ->
  let k' := snd (Kalman.predict None None None None k) in
  fst (Kalman.predict None None None None k) = ok tt
  /\ Kalman.x_state k' = Kalman.x_state k
  /\ Kalman.P_cov k' = Kalman.P_cov k
  /\ Kalman.x_prior k' = Kalman.x_state k
  /\ Kalman.P_prior k' = Kalman.P_cov k.
Proof.
  intros Hk HF HQ Ha k'. subst k'.
  assert (Hrun := @predict_predicted k n m None None None None Hk I I).
  rewrite Hrun by (unfold control_fits, or_stored; now destruct (Kalman.B_control k)).
  destruct Hk as (Hds & Hdm & Hx & HP & _).
  unfold predicted, default, default_noise, or_stored. cbn [fst snd].
  rewrite HF, HQ, Ha, (predicted_cov_identity 1 HP), (mscale_one HP).
  assert (Hxs : predicted_state (np.identity n) (Kalman.B_control k) None
                  (Kalman.x_state k) = Kalman.x_state k).
  { unfold predicted_state. destruct (Kalman.B_control k);
      apply (mdot_identity_l Hx). }
  rewrite Hxs. cbn. repeat split; reflexivity.
Qed.

Lemma Kalman_predict_stationary_witness :
  Kalman.P_cov (snd (Kalman.predict None None None None noiseless))
  = Kalman.P_cov noiseless.
Proof.
  apply (@Kalman_predict_stationary noiseless 1 1 noiseless_conforms
           eq_refl eq_refl eq_refl).
Defined.

(** X18.  A measurement that agrees with the prediction, [z = H x], does
    not move the state: the residual is zero and [x_state] (and [x_post])
    is the state the call found, whatever the gain. *)
Theorem Kalman_update_consistent_measurement
        (linalg_inv : matrix -> result matrix)
        (k : Kalman.t) (n m : nat) (R : option value) (H SI : matrix) :
  conforms k n m ->
  noise_shaped R m ->
  shaped H m n ->
  linalg_inv (innovation_cov H (Kalman.P_cov k)
                (default_noise R (Kalman.R_measure_var k) m)) = ok SI ->
  nrows SI = m -> ncols SI = m ->
  let z := Arr (mdot H (Kalman.x_state k)) in
  let k' := snd (Kalman.update linalg_inv (Some z) R (Some H) k) in
  fst (Kalman.update linalg_inv (Some z) R (Some H) k) = ok tt
  /\ Kalman.y k' = zero m 1
  /\ Kalman.x_state k' = Kalman.x_state k
  /\ Kalman.x_post k' = Kalman.x_state k.
Proof.
  intros Hk HR HH Hinv Hr Hc z k'. subst k' z.
  pose proof Hk as (_ & _ & Hx & _). pose proof HH as (HHr & HHc & _).
  pose proof Hx as (Hxr & Hxc & _).
  assert (Hz : measurement_shaped (Arr (mdot H (Kalman.x_state k))) m).
  { cbn. apply shaped_intro; shapes. }
  rewrite (@update_measured linalg_inv k n m _ R H SI Hk Hz HR HH Hinv Hr Hc).
  assert (Hy : residual (Arr (mdot H (Kalman.x_state k)))
                 (mdot H (Kalman.x_state k)) = zero m 1)
    by (apply residual_self; shapes).
  assert (Hxs : madd (Kalman.x_state k)
                  (mdot (gain H (Kalman.P_cov k) SI)
                     (residual (Arr (mdot H (Kalman.x_state k)))
                        (mdot H (Kalman.x_state k)))) = Kalman.x_state k).
  { rewrite Hy. rewrite mdot_zero_r with (n := m) by (unfold gain; shapes).
    change (nrows (gain H (Kalman.P_cov k) SI)) with (nrows (Kalman.P_cov k)).
    destruct Hk as (_ & _ & _ & (-> & _) & _). now apply madd_zero_r. }
  unfold measured. cbn. rewrite Hxs, Hy. repeat split; reflexivity.
Qed.

Lemma Kalman_update_consistent_measurement_witness :
  Kalman.x_state
    (snd (Kalman.update exact_inv
            (Some (Arr (mdot (np.identity 1) (Kalman.x_state noiseless))))
            None (Some (np.identity 1)) noiseless))
  = Kalman.x_state noiseless.
Proof.
  apply (@Kalman_update_consistent_measurement exact_inv noiseless 1 1 None
           (np.identity 1) (adjugate_inverse (np.identity 1))
           noiseless_conforms I (identity_shaped 1)
           noiseless_inverse eq_refl eq_refl).
Defined.

(** ** More on the history buffer *)

Lemma deque_append_unbounded (l : list R) (x : R) :
  deque_append x (mk_deque None l) = mk_deque None (l ++ [x]).
Proof. reflexivity. Qed.

Lemma deque_append_last (d : deque) (x : R) :
  maxlen d <> Some 0%nat ->
  exists w, items (deque_append x d) = (w ++ [x])%list.
Proof.
  intros Hd. unfold deque_append. destruct (maxlen d) as [n|] eqn:E; cbn [items].
  - destruct (Nat.ltb_spec n (length (items d ++ [x]))) as [Hfull|_].
    + destruct (items d) as [|y l] eqn:El.
      * cbn in Hfull. assert (n = 0%nat) by lia. subst n. now elim Hd.
      * exists l. reflexivity.
    + now exists (items d).
  - now exists (items d).
Qed.

Lemma direct_form_length (b a_tail : list R) (a0 : R) (xs xh yh : list R) :
  length (direct_form b a_tail a0 xh yh xs) = length xs.
Proof.
  revert xh yh. induction xs as [|x xs IH]; intros xh yh; cbn; [reflexivity|].
  now rewrite IH.
Qed.

Lemma scipy_lfilter_length (b a : scipy_entry) (x : list R) (axis : Z)
      (out : list R) :
  scipy_lfilter b a x axis = ok out -> length out = length x.
Proof.
  unfold scipy_lfilter.
  destruct b as [b| |]; try discriminate.
  destruct a as [[|a0 a_tail]| |]; try discriminate.
  destruct (valid_axis axis); [|discriminate].
  destruct (Req_EM_T a0 0); [discriminate|].
  unfold ok. intros [= <-]. apply direct_form_length.
Qed.

Lemma cascade_length (sections : list (list R)) (x out : list R) :
  cascade sections x = ok out -> length out = length x.
Proof.
  revert x. induction sections as [|row rest IH]; intros x; cbn.
  - unfold ok. now intros [= <-].
  - destruct row as [|b0 [|b1 [|b2 [|a0 [|a1 [|a2 [|extra more]]]]]]];
      try discriminate.
    destruct (Req_EM_T a0 0); [discriminate|].
    intros H. apply IH in H. now rewrite direct_form_length in H.
Qed.

Lemma scipy_sosfilt_length (c : scipy_coefs) (x : list R) (axis : Z)
      (out : list R) :
  scipy_sosfilt c x axis = ok out -> length out = length x.
Proof.
  unfold scipy_sosfilt. destruct c; try discriminate.
  destruct (valid_axis axis); [|discriminate]. apply cascade_length.
Qed.

Section Filter_IIR_more.

Variables design coefficients entry : Type.
Variable iirfilter : string -> string -> design -> result coefficients.
Variable getitem : coefficients -> Z -> result entry.
Variable lfilter : entry -> entry -> list R -> Z -> result (list R).
Variable sosfilt : coefficients -> list R -> Z -> result (list R).

Local Abbreviation filter := (Filter_IIR.t coefficients).
Local Abbreviation process := (Filter_IIR.process getitem lfilter sosfilt).
Local Abbreviation filtered := (Filter_IIR.filtered getitem lfilter sosfilt).
Local Abbreviation feed := (Filter_IIR.feed getitem lfilter sosfilt).
Local Abbreviation init := (Filter_IIR.__init__ iirfilter).
Local Abbreviation holding := (@Filter_IIR.holding coefficients).

Lemma process_unbounded (w : list R) (x : R) (f : filter) :
  process x (Filter_IIR.set_buffer (mk_deque None w) f) =
  (filtered (Filter_IIR.set_buffer (mk_deque None (w ++ [x])) f),
   Filter_IIR.set_buffer (mk_deque None (w ++ [x])) f).
Proof. reflexivity. Qed.

Lemma feed_unbounded (xs w : list R) (f : filter) :
  snd (feed xs (Filter_IIR.set_buffer (mk_deque None w) f))
  = Filter_IIR.set_buffer (mk_deque None (w ++ xs)) f.
Proof.
  revert w. induction xs as [|x xs IH]; intros w.
  - cbn. now rewrite app_nil_r.
  - cbn [Filter_IIR.feed]. rewrite process_unbounded.
    destruct (feed xs (Filter_IIR.set_buffer (mk_deque None (w ++ [x])) f))
      as [outs f'] eqn:E.
    cbn [snd]. change f' with (snd (outs, f')). rewrite <- E.
    rewrite IH, <- app_assoc. reflexivity.
Qed.

Lemma init_unbounded (ftype coef_type : string) (axis : Z) (kwargs : design)
      (f : filter) :
  init ftype None coef_type axis kwargs = ok f ->
  f = Filter_IIR.set_buffer (mk_deque None []) f.
Proof.
  unfold Filter_IIR.__init__, rbind, deque_new.
  destruct (iirfilter ftype coef_type kwargs) as [e|c]; [discriminate|].
  unfold ok. now intros [= <-].
Qed.

(** X13.  With [buffer_size = None] nothing is ever evicted: after the
    samples [xs] the buffer holds all of [xs], and the next [process(x)]
    runs the filter step over the whole history [xs ++ [x]]. *)
Theorem Filter_IIR_unbounded_history (ftype coef_type : string) (axis : Z)
        (kwargs : design) (f : filter) (xs : list R) (x : R) :
  init ftype None coef_type axis kwargs = ok f ->
  let f' := snd (feed xs f) in
  items (Filter_IIR.buffer f') = xs
  /\ process x f' =
     (filtered (Filter_IIR.set_buffer (mk_deque None (xs ++ [x])) f),
      Filter_IIR.set_buffer (mk_deque None (xs ++ [x])) f).
Proof.
  intros Hf f'. subst f'. rewrite (init_unbounded _ _ _ _ Hf) at 1 2.
  rewrite feed_unbounded. cbn [app]. split; [reflexivity|].
  apply process_unbounded.
Qed.

(** X14.  A [buffer_size] that is negative or beyond the range of a C
    [ssize_t] makes the construction raise: the error of
    [signal.iirfilter] if it has one (the coefficients are asked for
    first), and otherwise the error of [deque], which is its [ValueError]
    for a negative size within the range of [ssize_t] and the
    [OverflowError] of the conversion for a size outside that range. *)
Theorem Filter_IIR_refused_buffer_size (ftype coef_type : string) (n : Z)
        (axis : Z) (kwargs : design) :
  (n < 0 \/ ssize_t_max < n)%Z ->
  init ftype (Some n) coef_type axis kwargs =
  err (match iirfilter ftype coef_type kwargs with
       | inl e => e
       | inr _ =>
           if (ssize_t_min <=? n)%Z && (n <? 0)%Z
           then ValueError "maxlen must be non-negative"
           else not_a_ssize_t
       end).
Proof.
  intros Hn. unfold Filter_IIR.__init__, rbind, deque_new.
  destruct (iirfilter ftype coef_type kwargs) as [e|c]; [reflexivity|].
  assert (Hmin : (ssize_t_min < 0)%Z) by reflexivity.
  assert (Hmax : (0 < ssize_t_max)%Z) by reflexivity.
  destruct (Z.ltb_spec n ssize_t_min) as [Hlo|Hlo];
    destruct (Z.ltb_spec ssize_t_max n) as [Hhi|Hhi];
    destruct (Z.leb_spec ssize_t_min n) as [Hlo'|Hlo'];
    destruct (Z.ltb_spec n 0) as [Hneg|Hneg];
    cbn [orb andb]; try reflexivity; lia.
Qed.

(** X15.  [process] touches the buffer only, and it appends before it
    filters: whatever the outcome of the call, also when the filter step
    raises, [ftype], [coef_type], [axis], [coefs] and the bound of the
    buffer are as before and (unless the bound is 0) the sample is the
    last item of the buffer. *)
Theorem Filter_IIR_process_frame (f : filter) (x : R) :
  let f' := snd (process x f) in
  Filter_IIR.ftype f' = Filter_IIR.ftype f
  /\ Filter_IIR.coef_type f' = Filter_IIR.coef_type f
  /\ Filter_IIR.axis f' = Filter_IIR.axis f
  /\ Filter_IIR.coefs f' = Filter_IIR.coefs f
  /\ maxlen (Filter_IIR.buffer f') = maxlen (Filter_IIR.buffer f)
  /\ (maxlen (Filter_IIR.buffer f) <> Some 0%nat ->
      exists w, items (Filter_IIR.buffer f') = (w ++ [x])%list).
Proof.
  cbv zeta. rewrite process_unfold. cbn [snd].
  cbn [Filter_IIR.ftype Filter_IIR.coef_type Filter_IIR.axis Filter_IIR.coefs
       Filter_IIR.buffer Filter_IIR.set_buffer].
  repeat (split; [reflexivity|]).
  split.
  - unfold deque_append. now destruct (maxlen (Filter_IIR.buffer f)).
  - apply deque_append_last.
Qed.

Hypothesis lfilter_length :
  forall b a x axis out, lfilter b a x axis = ok out -> length out = length x.
Hypothesis sosfilt_length :
  forall c x axis out, sosfilt c x axis = ok out -> length out = length x.

Lemma filtered_empty (f : filter) :
  items (Filter_IIR.buffer f) = [] ->
  Filter_IIR.coef_type f = "ba"%string \/ Filter_IIR.coef_type f = "sos"%string ->
  exists e, filtered f = err e.
Proof.
  intros Hb [Hct|Hct]; unfold Filter_IIR.filtered, rbind; rewrite Hct, Hb; cbn.
  - destruct (getitem (Filter_IIR.coefs f) 0) as [e|b]; [now exists e|].
    destruct (getitem (Filter_IIR.coefs f) 1) as [e|a]; [now exists e|].
    destruct (lfilter b a [] (Filter_IIR.axis f)) as [e|out] eqn:E; [now exists e|].
    apply lfilter_length in E. destruct out; [|discriminate].
    eexists. reflexivity.
  - destruct (sosfilt (Filter_IIR.coefs f) [] (Filter_IIR.axis f)) as [e|out] eqn:E;
      [now exists e|].
    apply sosfilt_length in E. destruct out; [|discriminate].
    eexists. reflexivity.
Qed.

Lemma feed_empty_buffer (xs : list R) (f : filter) :
  Filter_IIR.coef_type f = "ba"%string \/ Filter_IIR.coef_type f = "sos"%string ->
  Forall (fun out => exists e, out = err e) (fst (feed xs (holding 0 [] f)))
  /\ snd (feed xs (holding 0 [] f)) = holding 0 [] f.
Proof.
  intros Hct. induction xs as [|x xs [IHo IHs]].
  - split; [constructor|reflexivity].
  - cbn [Filter_IIR.feed]. rewrite process_holding by (cbn; lia).
    change (lastn 0 ([] ++ [x])) with (@nil R).
    destruct (feed xs (holding 0 [] f)) as [outs f'] eqn:E.
    cbn [fst snd] in *. split; [|assumption].
    constructor; [|assumption].
    apply filtered_empty; [reflexivity|exact Hct].
Qed.

(** X16.  With [buffer_size = 0] and a recognised [coef_type] no call of
    [process] ever returns a value: the buffer stays empty, and for
    filter routines that return as many samples as they are given,
    indexing the last element of the empty result raises. *)
Theorem Filter_IIR_empty_buffer_never_filters (ftype coef_type : string)
        (axis : Z) (kwargs : design) (f : filter) (xs : list R) :
  init ftype (Some 0%Z) coef_type axis kwargs = ok f ->
  coef_type = "ba"%string \/ coef_type = "sos"%string ->
  Forall (fun out => exists e, out = err e) (fst (feed xs f))
  /\ items (Filter_IIR.buffer (snd (feed xs f))) = [].
Proof.
  intros Hf Hct.
  destruct (@init_holding design coefficients iirfilter ftype 0 coef_type axis
              kwargs f Hf)
    as [Hfresh Hc].
  rewrite Hfresh.
  destruct (@feed_empty_buffer xs f) as [Ho Hs]; [now rewrite Hc|].
  split; [exact Ho|]. now rewrite Hs.
Qed.

End Filter_IIR_more.

Lemma unbounded_filter_constructed :
  Filter_IIR.__init__ scipy_iirfilter "butter" None "sos" 0 tt
  = ok unbounded_filter.
Proof. reflexivity. Qed.

Lemma blocked_filter_constructed :
  Filter_IIR.__init__ scipy_iirfilter "butter" (Some 0%Z) "ba" 0 tt
  = ok blocked_filter.
Proof. reflexivity. Qed.

Lemma Filter_IIR_unbounded_history_witness :
  items (Filter_IIR.buffer
           (snd (Filter_IIR.feed scipy_getitem scipy_lfilter scipy_sosfilt
                                 [1; 2; 3] unbounded_filter)))
  = [1; 2; 3].
Proof.
  apply (@Filter_IIR_unbounded_history unit scipy_coefs scipy_entry
           scipy_iirfilter scipy_getitem scipy_lfilter scipy_sosfilt
           "butter" "sos" 0%Z tt unbounded_filter [1; 2; 3] 4
           unbounded_filter_constructed).
Defined.

Lemma Filter_IIR_refused_buffer_size_witness :
  Filter_IIR.__init__ scipy_iirfilter "butter" (Some (-1)%Z) "ba" 0 tt
  = err (ValueError "maxlen must be non-negative").
Proof.
  apply (@Filter_IIR_refused_buffer_size unit scipy_coefs scipy_iirfilter
           "butter" "ba" (-1)%Z 0%Z tt).
  left. lia.
Defined.

Lemma Filter_IIR_process_frame_witness :
  exists w,
    items (Filter_IIR.buffer
             (snd (Filter_IIR.process scipy_getitem scipy_lfilter scipy_sosfilt
                                      5 zpk_filter)))
    = (w ++ [5])%list.
Proof.
  apply (@Filter_IIR_process_frame scipy_coefs scipy_entry scipy_getitem
           scipy_lfilter scipy_sosfilt zpk_filter 5).
  discriminate.
Defined.

Lemma Filter_IIR_empty_buffer_never_filters_witness :
  Forall (fun out => exists e, out = err e)
         (fst (Filter_IIR.feed scipy_getitem scipy_lfilter scipy_sosfilt
                               [1; 2] blocked_filter)).
Proof.
  apply (@Filter_IIR_empty_buffer_never_filters unit scipy_coefs scipy_entry
           scipy_iirfilter scipy_getitem scipy_lfilter scipy_sosfilt
           scipy_lfilter_length scipy_sosfilt_length
           "butter" "ba" 0%Z tt blocked_filter [1; 2]
           blocked_filter_constructed (or_introl eq_refl)).
Defined.
